(** * pytest-watch: configuration merging ([pytest_watch/config.py])

    A shallow embedding of [MultiLineConfigParser], the config locator and
    [merge_config], together with the parts of Python's [str], [re] and
    [configparser] that the module calls.

    Conventions.
    - A Python [str] is a list of characters; characters are the code points
      below 256, so that [ascii] can carry them.
    - A Python [dict] is an association list in insertion order; that is the
      order in which [for k in d] visits the keys.
    - Code that can raise returns a [result]; in-place mutation of the
      argument structure is explicit state passing.
    - [print] calls and the output silencing of [util.silence] have no
      influence on any value computed here and are left out. *)

From Stdlib Require Import List Ascii String ZArith Bool Arith.
Import ListNotations.

Set Implicit Arguments.
Open Scope list_scope.

(* ================================================================== *)
(** * Python strings *)
(* ================================================================== *)

Module PyStr.

Definition str := list ascii.

(** Literals. *)
Definition py (s : string) : str := list_ascii_of_string s.

Definition nl : ascii := "010"%char.        (* line feed *)
Definition dquote : ascii := "034"%char.    (* double quote *)
Definition squote : ascii := "039"%char.    (* single quote *)
Definition backslash : ascii := "092"%char. (* backslash *)

Fixpoint str_eqb (a b : str) : bool :=
  match a, b with
  | [], [] => true
  | x :: a', y :: b' => Ascii.eqb x y && str_eqb a' b'
  | _, _ => false
  end.

(** [str.isspace] of one character, which is also the class [\s] of [re]
    on [str] patterns: TAB..CR, FS..US, SPACE, NEL and NBSP. *)
Definition isspace (c : ascii) : bool :=
  let n := nat_of_ascii c in
  ((9 <=? n) && (n <=? 13)) || ((28 <=? n) && (n <=? 32))
  || (n =? 133) || (n =? 160).

(** [c in chars]. *)
Definition char_in (chars : str) (c : ascii) : bool :=
  existsb (Ascii.eqb c) chars.

Fixpoint dropwhile (p : ascii -> bool) (s : str) : str :=
  match s with
  | [] => []
  | c :: s' => if p c then dropwhile p s' else s
  end.

Definition lstrip_by (p : ascii -> bool) (s : str) : str := dropwhile p s.
Definition rstrip_by (p : ascii -> bool) (s : str) : str :=
  rev (dropwhile p (rev s)).
Definition strip_by (p : ascii -> bool) (s : str) : str :=
  rstrip_by p (lstrip_by p s).

(** [s.strip()], [s.rstrip()] and [s.strip(chars)]. *)
Definition strip (s : str) : str := strip_by isspace s.
Definition rstrip (s : str) : str := rstrip_by isspace s.
Definition strip_chars (chars : str) (s : str) : str :=
  strip_by (char_in chars) s.

(** [s.split(sep)] for a one-character separator. *)
Fixpoint split (sep : ascii) (s : str) : list str :=
  match s with
  | [] => [[]]
  | c :: s' =>
      if Ascii.eqb c sep then [] :: split sep s'
      else match split sep s' with
           | [] => [[c]]
           | w :: ws => (c :: w) :: ws
           end
  end.

(** [sep.join(items)]. *)
Fixpoint join (sep : str) (items : list str) : str :=
  match items with
  | [] => []
  | [x] => x
  | x :: rest => x ++ sep ++ join sep rest
  end.

(** [s.startswith(prefix)]. *)
Fixpoint startswith (prefix s : str) : bool :=
  match prefix, s with
  | [], _ => true
  | _ :: _, [] => false
  | p :: prefix', c :: s' => Ascii.eqb p c && startswith prefix' s'
  end.

(** [s.lower()] on code points below 256: A..Z and the Latin-1 capitals
    (0xC0..0xDE without the multiplication sign 0xD7). *)
Definition lower_char (c : ascii) : ascii :=
  let n := nat_of_ascii c in
  if ((65 <=? n) && (n <=? 90))
     || ((192 <=? n) && (n <=? 222) && negb (n =? 215))
  then ascii_of_nat (n + 32) else c.

Definition lower (s : str) : str := map lower_char s.

(** The lines an [io.StringIO] yields when iterated: split after every
    line feed, each line keeping its terminator. *)
Fixpoint readlines (s : str) : list str :=
  match s with
  | [] => []
  | c :: s' =>
      if Ascii.eqb c nl then [c] :: readlines s'
      else match readlines s' with
           | [] => [[c]]
           | l :: ls => (c :: l) :: ls
           end
  end.

(** [n] copies of a character. *)
Definition copies (n : nat) (c : ascii) : str := repeat c n.

End PyStr.
Import PyStr.

(* ================================================================== *)
(** * Exceptions and results *)
(* ================================================================== *)

Inductive exn : Type :=
  (* BaseException subclasses that are not Exception subclasses *)
  | KeyboardInterrupt
  | SystemExit
  | OtherBaseException      (* e.g. GeneratorExit *)
  (* defined in config.py *)
  | CollectError
  | StopCollect
  (* builtins *)
  | TypeError
  | ValueError
  | AttributeError
  | KeyError
  (* configparser *)
  | NoSectionError
  | NoOptionError
  | MissingSectionHeaderError
  | DuplicateSectionError
  | DuplicateOptionError
  | ParsingError
  (* any other Exception subclass *)
  | OtherException.

(** [isinstance(e, Exception)]. *)
Definition is_Exception (e : exn) : bool :=
  match e with
  | KeyboardInterrupt | SystemExit | OtherBaseException => false
  | _ => true
  end.

Inductive result (A : Type) : Type :=
  | Ok (a : A)
  | Raise (e : exn).
Arguments Ok {A} a.
Arguments Raise {A} e.

Definition bind {A B} (m : result A) (k : A -> result B) : result B :=
  match m with
  | Ok a => k a
  | Raise e => Raise e
  end.

Notation "x <- m ;; k" := (bind m (fun x => k))
  (at level 61, m at next level, right associativity).

(* ================================================================== *)
(** * Python dicts *)
(* ================================================================== *)

Module PyDict.
Section Dict.
Variable V : Type.

Definition dict := list (str * V).

(** [d.get(k)] / [k in d]. *)
Fixpoint getitem (d : dict) (k : str) : option V :=
  match d with
  | [] => None
  | (k', v) :: d' => if str_eqb k k' then Some v else getitem d' k
  end.

Definition contains (d : dict) (k : str) : bool :=
  match getitem d k with Some _ => true | None => false end.

(** [d[k] = v]: overwrite in place, or insert at the end. *)
Fixpoint setitem (d : dict) (k : str) (v : V) : dict :=
  match d with
  | [] => [(k, v)]
  | (k', v') :: d' =>
      if str_eqb k k' then (k', v) :: d'
      else (k', v') :: setitem d' k v
  end.

(** [list(d)]: the keys in iteration order. *)
Definition keys (d : dict) : list str := map fst d.
End Dict.
End PyDict.
Import PyDict.

(* ================================================================== *)
(** * Regular expressions ([re])

    The fragment of [re] that [array_pattern] is written in, with the
    backtracking order of the real engine: every way to match is listed,
    most preferred first, and [match] takes the first one. *)
(* ================================================================== *)

Module Re.

Inductive regex : Type :=
  | Bol                                        (* ^ under re.MULTILINE *)
  | Eos                                        (* $ without re.MULTILINE *)
  | Cls (p : ascii -> bool)                    (* one character of a class *)
  | Star (greedy : bool) (p : ascii -> bool)   (* class* and class*? *)
  | Cat (a b : regex)                          (* a followed by b *)
  | Group (name : string) (r : regex).         (* (?P<name>r) *)

(** One way to match: the groups captured, the text consumed, whether the
    position after it is at the beginning of a line, and the text left. *)
Record matched : Type := Matched {
  groups : list (string * str);
  consumed : str;
  at_bol : bool;
  remaining : str
}.

Definition extend (c : ascii) (m : matched) : matched :=
  Matched (groups m) (c :: consumed m) (at_bol m) (remaining m).

(** [class*]: the longest run first, then shorter ones. *)
Fixpoint star_greedy (p : ascii -> bool) (bol : bool) (s : str)
  : list matched :=
  match s with
  | c :: s' =>
      if p c
      then map (extend c) (star_greedy p (Ascii.eqb c nl) s')
           ++ [Matched [] [] bol s]
      else [Matched [] [] bol s]
  | [] => [Matched [] [] bol []]
  end.

(** [class*?]: the empty run first, then longer ones. *)
Fixpoint star_lazy (p : ascii -> bool) (bol : bool) (s : str)
  : list matched :=
  Matched [] [] bol s ::
  match s with
  | c :: s' =>
      if p c then map (extend c) (star_lazy p (Ascii.eqb c nl) s') else []
  | [] => []
  end.

Definition then_ (m1 m2 : matched) : matched :=
  Matched (groups m1 ++ groups m2) (consumed m1 ++ consumed m2)
          (at_bol m2) (remaining m2).

Fixpoint run (r : regex) (bol : bool) (s : str) : list matched :=
  match r with
  | Bol => if bol then [Matched [] [] bol s] else []
  | Eos =>
      match s with
      | [] => [Matched [] [] bol s]
      | [c] => if Ascii.eqb c nl then [Matched [] [] bol s] else []
      | _ => []
      end
  | Cls p =>
      match s with
      | c :: s' => if p c then [Matched [] [c] (Ascii.eqb c nl) s'] else []
      | [] => []
      end
  | Star true p => star_greedy p bol s
  | Star false p => star_lazy p bol s
  | Cat a b =>
      flat_map (fun m1 => map (then_ m1) (run b (at_bol m1) (remaining m1)))
               (run a bol s)
  | Group name r' =>
      map (fun m => Matched ((name, consumed m) :: groups m) (consumed m)
                            (at_bol m) (remaining m))
          (run r' bol s)
  end.

(** [pattern.match] anchored at the current position. *)
Definition match_here (r : regex) (bol : bool) (s : str) : option matched :=
  hd_error (run r bol s).

(** [m.group(name)]. *)
Fixpoint group (name : string) (gs : list (string * str)) : str :=
  match gs with
  | [] => []
  | (n, w) :: gs' => if String.eqb n name then w else group name gs'
  end.

(** [pattern.search(s)]: the match at the leftmost position that has one,
    with that position ([m.start()]). *)
Fixpoint search_from (r : regex) (start : nat) (bol : bool) (s : str)
  : option (nat * matched) :=
  match match_here r bol s with
  | Some m => Some (start, m)
  | None =>
      match s with
      | [] => None
      | c :: s' => search_from r (S start) (Ascii.eqb c nl) s'
      end
  end.

Definition search (r : regex) (s : str) : option (nat * matched) :=
  search_from r 0 true s.

(** [pattern.sub(repl, s)] with a function [repl], for a pattern that
    cannot match the empty string: scanning from the left, each match is
    replaced by [repl m] and scanning resumes after it.  [skip] counts the
    characters of the current match that are still to be passed over. *)
Fixpoint sub_from (r : regex) (repl : matched -> str)
                  (skip : nat) (bol : bool) (s : str) : str :=
  match s with
  | [] => []
  | c :: s' =>
      match skip with
      | S k => sub_from r repl k (Ascii.eqb c nl) s'
      | O =>
          match match_here r bol s with
          | Some m =>
              match List.length (consumed m) with
              | S k => repl m ++ sub_from r repl k (Ascii.eqb c nl) s'
              | O => c :: sub_from r repl 0 (Ascii.eqb c nl) s'
              end
          | None => c :: sub_from r repl 0 (Ascii.eqb c nl) s'
          end
      end
  end.

Definition sub (r : regex) (repl : matched -> str) (s : str) : str :=
  sub_from r repl 0 true s.

(** Whether a position is at the beginning of a line once the text [w] has
    been passed over. *)
Definition bol_after (bol : bool) (w : str) : bool :=
  fold_left (fun _ c => Ascii.eqb c nl) w bol.

(** Character classes. *)
Definition chr (c : ascii) : ascii -> bool := Ascii.eqb c.
Definition any_char : ascii -> bool := fun _ => true.       (* . with DOTALL *)
Definition not_nl (c : ascii) : bool := negb (Ascii.eqb c nl).  (* . *)
Definition non_space (c : ascii) : bool := negb (isspace c).    (* \S *)
Definition space : ascii -> bool := isspace.                (* \s *)
Definition not_eq_space (c : ascii) : bool :=               (* [^=\s] *)
  negb (Ascii.eqb c "="%char) && negb (isspace c).

End Re.
Import Re.

(* ================================================================== *)
(** * [configparser]: the reader behind [ConfigParser()]

    [RawConfigParser._read] as it runs for a parser built with the default
    constructor arguments: delimiters [=] and [:], comment prefixes [#] and
    [;], no inline comments, [strict], [empty_lines_in_values], no valueless
    options, default section [DEFAULT], [optionxform = str.lower]. *)
(* ================================================================== *)

Module ConfigParser.

Definition default_section : str := py "DEFAULT".

(** [SECTCRE]: an opening bracket, the group header made of  .+  , a
    closing bracket. *)
Definition SECTCRE : regex :=
  Cat (Cls (chr "["%char))
 (Cat (Group "header" (Cat (Cls not_nl) (Star true not_nl)))
      (Cls (chr "]"%char))).

(** The delimiters [=] and [:]. *)
Definition is_delimiter (c : ascii) : bool :=
  Ascii.eqb c "="%char || Ascii.eqb c ":"%char.

(** [OPTCRE]: the group option made of the lazy  .*?  , then  \s*  , the
    group vi (one of the delimiters), then  \s*  , the group value made of
    .*  , and the end anchor. *)
Definition OPTCRE : regex :=
  Cat (Group "option" (Star false not_nl))
 (Cat (Star true space)
 (Cat (Group "vi" (Cls is_delimiter))
 (Cat (Star true space)
 (Cat (Group "value" (Star true not_nl))
      Eos)))).

(** [NONSPACECRE]. *)
Definition NONSPACECRE : regex := Cls non_space.

(** What [cursect] refers to: [self._defaults] or [self._sections[name]]. *)
Inductive cursor : Type :=
  | InDefaults
  | InSection (name : str).

(** The parser's storage and the local variables of [_read].  While a file
    is being read, a value is the list of its lines. *)
Record reader : Type := Reader {
  r_sections : dict (dict (list str));
  r_defaults : dict (list str);
  elements_added : list (str * option str);
  cursect : option cursor;
  sectname : str;
  optname : option str;
  indent_level : nat;
  error : bool                 (* the local [e]: a ParsingError is pending *)
}.

Definition new_reader : reader :=
  Reader [] [] [] None [] None 0 false.

Definition added_eqb (a b : str * option str) : bool :=
  str_eqb (fst a) (fst b) &&
  match snd a, snd b with
  | None, None => true
  | Some x, Some y => str_eqb x y
  | _, _ => false
  end.

Definition is_added (x : str * option str) (rd : reader) : bool :=
  existsb (added_eqb x) (elements_added rd).

Definition get_cursect (rd : reader) (cur : cursor)
  : option (dict (list str)) :=
  match cur with
  | InDefaults => Some (r_defaults rd)
  | InSection name => getitem (r_sections rd) name
  end.

Definition set_cursect (rd : reader) (cur : cursor) (d : dict (list str))
  : reader :=
  match cur with
  | InDefaults =>
      Reader (r_sections rd) d (elements_added rd) (cursect rd)
             (sectname rd) (optname rd) (indent_level rd) (error rd)
  | InSection name =>
      Reader (setitem (r_sections rd) name d) (r_defaults rd)
             (elements_added rd) (cursect rd) (sectname rd) (optname rd)
             (indent_level rd) (error rd)
  end.

(** [cursect[optname].append(v)]. *)
Definition append_value (rd : reader) (cur : cursor) (opt v : str)
  : result reader :=
  match get_cursect rd cur with
  | None => Raise KeyError
  | Some d =>
      match getitem d opt with
      | None => Raise KeyError
      | Some lines => Ok (set_cursect rd cur (setitem d opt (lines ++ [v])))
      end
  end.

(** [cursect[optname] = [optval]]. *)
Definition assign_value (rd : reader) (cur : cursor) (opt v : str)
  : result reader :=
  match get_cursect rd cur with
  | None => Raise KeyError
  | Some d => Ok (set_cursect rd cur (setitem d opt [v]))
  end.

Definition with_line_state (rd : reader) (added : list (str * option str))
    (cur : option cursor) (sect : str) (opt : option str) (indent : nat)
    (err : bool) : reader :=
  Reader (r_sections rd) (r_defaults rd) added cur sect opt indent err.

(** A line whose stripped text starts with a comment prefix. *)
Definition is_comment (line : str) : bool :=
  startswith (py "#") (strip line) || startswith (py ";") (strip line).

(** The branch of [_read] for a section header [[sectname']]. *)
Definition read_section_header (rd : reader) (indent : nat) (name : str)
  : result reader :=
  if contains (r_sections rd) name then
    if is_added (name, None) rd then Raise DuplicateSectionError
    else Ok (with_line_state rd ((name, None) :: elements_added rd)
               (Some (InSection name)) name None indent (error rd))
  else if str_eqb name default_section then
    Ok (with_line_state rd (elements_added rd) (Some InDefaults) name None
          indent (error rd))
  else
    Ok (Reader (setitem (r_sections rd) name []) (r_defaults rd)
          ((name, None) :: elements_added rd) (Some (InSection name)) name
          None indent (error rd)).

(** The branch of [_read] for an option line inside [cur]. *)
Definition read_option (rd : reader) (cur : cursor) (indent : nat)
    (value : str) : result reader :=
  match match_here OPTCRE true value with
  | Some mo =>
      let optname0 := group "option" (groups mo) in
      let optval := group "value" (groups mo) in
      let err := match optname0 with [] => true | _ => error rd end in
      let opt := lower (rstrip optname0) in
      if is_added (sectname rd, Some opt) rd then Raise DuplicateOptionError
      else
        assign_value
          (with_line_state rd ((sectname rd, Some opt) :: elements_added rd)
             (cursect rd) (sectname rd) (Some opt) indent err)
          cur opt (strip optval)
  | None =>
      Ok (with_line_state rd (elements_added rd) (cursect rd) (sectname rd)
            (optname rd) indent true)
  end.

(** [optname] is truthy: neither [None] nor the empty string. *)
Definition current_option (rd : reader) : option str :=
  match optname rd with
  | Some (c :: o) => Some (c :: o)
  | _ => None
  end.

(** One iteration of the loop over the lines of the file. *)
Definition read_line (rd : reader) (line : str) : result reader :=
  let comment := is_comment line in
  let value := if comment then [] else strip line in
  match value with
  | [] =>
      match comment, cursect rd, current_option rd with
      | false, Some cur, Some opt => append_value rd cur opt []
      | _, _, _ => Ok rd
      end
  | _ :: _ =>
      let cur_indent_level :=
        match search NONSPACECRE line with
        | Some (start, _) => start
        | None => 0
        end in
      match cursect rd, current_option rd,
            indent_level rd <? cur_indent_level with
      | Some cur, Some opt, true => append_value rd cur opt value
      | _, _, _ =>
          match match_here SECTCRE true value with
          | Some mo =>
              read_section_header rd cur_indent_level
                                  (group "header" (groups mo))
          | None =>
              match cursect rd with
              | None => Raise MissingSectionHeaderError
              | Some cur => read_option rd cur cur_indent_level value
              end
          end
      end
  end.

Fixpoint read_lines (rd : reader) (lines : list str) : result reader :=
  match lines with
  | [] => Ok rd
  | line :: rest => rd' <- read_line rd line ;; read_lines rd' rest
  end.

(** The parser once a file is read: every value is one string. *)
Record config : Type := Config {
  _sections : dict (dict str);
  _defaults : dict str
}.

(** [ConfigParser()] before anything is read. *)
Definition empty_config : config := Config [] [].

(** [_join_multiline_values] on one section. *)
Definition join_values (options : dict (list str)) : dict str :=
  map (fun kv => (fst kv, rstrip (join [nl] (snd kv)))) options.

(** [_read] on a fresh parser: the loop, [_join_multiline_values], and the
    pending [ParsingError] raised at the end. *)
Definition _read (content : str) : result config :=
  rd <- read_lines new_reader (readlines content) ;;
  if error rd then Raise ParsingError
  else Ok (Config (map (fun sv => (fst sv, join_values (snd sv)))
                       (r_sections rd))
                  (join_values (r_defaults rd))).

(** [read_string] on a fresh parser. *)
Definition read_string (content : str) : result config := _read content.

(** What [open(filename, encoding=encoding)] and reading the file object
    give:
    - [FileText content]: the file opens and decodes to [content];
    - [FileOSError]: [open] raises [OSError];
    - [FileFails e seen]: opening or reading raises [e], which is not an
      [OSError] (a [UnicodeDecodeError], which is a [ValueError], when the
      bytes do not decode; a [ValueError] for a file name that holds a null
      character).  [f.read()] raises [e] and returns nothing; a loop over the
      lines of the file object gets the lines of [seen], the text decoded
      before the failure, and then [e].
    An [OSError] that comes after the file was opened is not modelled. *)
Inductive file : Type :=
  | FileText (content : str)
  | FileOSError
  | FileFails (e : exn) (seen : str).

(** [RawConfigParser.read] of one file name on a fresh parser.  The body of
    the loop is [try: with open(...) as fp: self._read(fp, filename)] under
    [except OSError: continue]: a file that cannot be opened is skipped, any
    other exception leaves [read].  In [_read] the lines are parsed as they
    are read, so an error that a line raises at once comes before the failure
    of a later read, and the failure comes before the steps that follow the
    loop.  [open_file] is the file system. *)
Definition RawConfigParser_read (open_file : str -> file)
    (filename : str) : result config :=
  match open_file filename with
  | FileOSError => Ok empty_config
  | FileText content => _read content
  | FileFails e seen =>
      _ <- read_lines new_reader (readlines seen) ;;
      Raise e
  end.

Definition has_section (cfg : config) (section : str) : bool :=
  contains (_sections cfg) section.

Definition has_option (cfg : config) (section option : str) : bool :=
  match section with
  | [] => contains (_defaults cfg) (lower option)
  | _ =>
      if str_eqb section default_section
      then contains (_defaults cfg) (lower option)
      else
        match getitem (_sections cfg) section with
        | None => false
        | Some options =>
            contains options (lower option)
            || contains (_defaults cfg) (lower option)
        end
  end.

(** Python values passed as arguments of [get]. *)
Inductive pyobj : Type :=
  | PNone
  | PBool (b : bool)
  | PStr (s : str).

(** [RawConfigParser.get(self, section, option, *, raw=False, vars=None,
    fallback=_UNSET)].  The parameters after the bare star are keyword-only:
    a call that passes anything but [section] and [option] positionally
    raises [TypeError] when the arguments are bound, before the body runs.
    [body] is the method's body (lookup and interpolation) for a call whose
    arguments bind. *)
Definition RawConfigParser_get (body : config -> str -> str -> result str)
    (cfg : config) (positional : list pyobj) : result str :=
  match positional with
  | [PStr section; PStr option] => body cfg section option
  | _ => Raise TypeError
  end.

(** [BOOLEAN_STATES] and [_convert_to_boolean]. *)
Definition BOOLEAN_STATES : dict bool :=
  [ (py "1", true); (py "yes", true); (py "true", true); (py "on", true);
    (py "0", false); (py "no", false); (py "false", false);
    (py "off", false) ].

Definition _convert_to_boolean (value : str) : result bool :=
  match getitem BOOLEAN_STATES (lower value) with
  | None => Raise ValueError
  | Some b => Ok b
  end.

End ConfigParser.
Import ConfigParser.

(* ================================================================== *)
(** * [config.py] *)
(* ================================================================== *)

(** ** [MultiLineConfigParser] *)

Module MultiLineConfigParser.

(** [array_pattern], compiled with [re.DOTALL | re.MULTILINE]; piece by
    piece, in the order of the source pattern:
    - the anchor ^ ;
    - the group key, made of  \s*  [^=\s]+  \s*  =  \s*  ;
    - an opening bracket;
    - the group items, made of the lazy  .*?  ;
    - a closing bracket. *)
Definition array_pattern : regex :=
  Cat Bol
 (Cat (Group "key"
        (Cat (Star true space)
        (Cat (Cat (Cls not_eq_space) (Star true not_eq_space))
        (Cat (Star true space)
        (Cat (Cls (chr "="%char))
             (Star true space))))))
 (Cat (Cls (chr "["%char))
 (Cat (Group "items" (Star false any_char))
      (Cls (chr "]"%char))))).

(** The separator of the join in [_replace_array].  The source writes the
    literal ['\\n'] inside a replacement field of a non-raw f-string.  A
    backslash is accepted there from Python 3.12 on, and the nested literal
    is an ordinary string literal: the two characters backslash and n. *)
Definition array_item_separator : str := [backslash; "n"%char].

(** The list comprehension of [_replace_array]:
    each [item] of [items.split(',')] whose [item.strip()] is truthy gives
    [item.strip()] stripped of double quotes, then of single quotes. *)
Definition array_items (items : str) : list str :=
  map (fun item => strip_chars [squote] (strip_chars [dquote] (strip item)))
      (filter (fun item => match strip item with [] => false | _ => true end)
              (split ","%char items)).

Definition _replace_array (m : matched) : str :=
  group "key" (groups m)
  ++ join array_item_separator (array_items (group "items" (groups m))).

(** [processed = array_pattern.sub(_replace_array, content)]. *)
Definition normalize (content : str) : str :=
  sub array_pattern _replace_array content.

(** What [MultiLineConfigParser.get] returns: a string, or the list of the
    lines of a multi-line value. *)
Inductive getval : Type :=
  | GStr (s : str)
  | GList (l : list str).

(** [MultiLineConfigParser.get(self, section, option, raw=False, vars=None,
    fallback=None)].  The call to [super().get] passes all five arguments
    positionally. *)
Definition get (body : config -> str -> str -> result str) (cfg : config)
    (section option : str) (raw vars fallback : pyobj) : result getval :=
  value <- RawConfigParser_get body cfg
             [PStr section; PStr option; raw; vars; fallback] ;;
  if char_in value nl then Ok (GList (split nl value)) else Ok (GStr value).

(** [getboolean], inherited: [_get_conv] and [_get] end in
    [conv(self.get(section, option, raw=raw, vars=vars))], where [self.get]
    is the override above and [conv] is [_convert_to_boolean], which calls
    [value.lower()]. *)
Definition getboolean (body : config -> str -> str -> result str)
    (cfg : config) (section option : str) : result bool :=
  value <- get body cfg section option (PBool false) PNone PNone ;;
  match value with
  | GStr s => _convert_to_boolean s
  | GList _ => Raise AttributeError
  end.

(** [MultiLineConfigParser.read] of one file name on a fresh parser.  The
    [try] holds [open] and [f.read()]; its handler is [except Exception],
    which calls the inherited [read] on the same name and returns: that call
    opens the file again, skips it on [OSError] and lets any other exception
    out.  An exception that is no [Exception] leaves the [try] as it is. *)
Definition read (open_file : str -> file) (filename : str)
  : result config :=
  match open_file filename with
  | FileText content => read_string (normalize content)
  | FileOSError => RawConfigParser_read open_file filename
  | FileFails e _ =>
      if is_Exception e then RawConfigParser_read open_file filename
      else Raise e
  end.

End MultiLineConfigParser.
Import MultiLineConfigParser.

(** ** The config locator *)

Definition CLI_OPTION_PREFIX : str := py "--".

(** How one call of [pytest.main] ends when no plugin interferes. *)
Inductive finish : Type :=
  | Exit (exit_code : Z)
  | Throw (e : exn).

(** One call of [pytest.main(argv, plugins=[plugin])]: whether the host
    calls the hook [pytest_cmdline_main], with which resolved ini file, and
    how the call ends if the hook returns.  An exception raised by the hook
    leaves [pytest.main]. *)
Record pytest_run : Type := PytestRun {
  hook_inifile : option (option str);
  finish_of : finish
}.

(** What the module uses and does not define: the exit codes of
    [constants.py], the test runner and the file system.  [pytest_main n
    argv] is the [n]-th call of [pytest.main] of a merge, counted from 0. *)
Record env : Type := Env {
  EXIT_OK : Z;
  EXIT_INTERRUPTED : Z;
  EXIT_NOTESTSCOLLECTED : Z;
  pytest_main : nat -> list str -> pytest_run;
  open_file : str -> file
}.

(** [CollectConfig.pytest_cmdline_main]: the new [self.path] and whether
    [StopCollect] is raised. *)
Definition pytest_cmdline_main (inifile : option str) : option str * bool :=
  match inifile with
  | Some (c :: p) => (Some (c :: p), true)
  | _ => (None, false)
  end.

(** [pytest.main(argv, plugins=[collect_config_plugin])]: the path the
    plugin holds afterwards, and how the call ends. *)
Definition main_with_plugin (run : pytest_run) : option str * finish :=
  match hook_inifile run with
  | Some inifile =>
      let '(path, stop) := pytest_cmdline_main inifile in
      (path, if stop then Throw StopCollect else finish_of run)
  | None => (None, finish_of run)
  end.

Definition _run_pytest_collect (E : env) (call : nat) (pytest_args : list str)
  : result (option str) :=
  let argv := pytest_args ++ [py "--collect-only"] in
  let '(path, ended) := main_with_plugin (pytest_main E call argv) in
  match ended with
  | Throw StopCollect => Ok path
  | Throw e => Raise e
  | Exit exit_code =>
      if (exit_code =? EXIT_INTERRUPTED E)%Z then Raise KeyboardInterrupt
      else if negb ((exit_code =? EXIT_OK E)%Z
                    || (exit_code =? EXIT_NOTESTSCOLLECTED E)%Z)
      then Raise CollectError
      else Ok path
  end.

(** [except (KeyboardInterrupt, Exception, SystemExit)]. *)
Definition caught_when_silent (e : exn) : bool :=
  match e with
  | KeyboardInterrupt | SystemExit => true
  | _ => is_Exception e
  end.

Definition _collect_config (E : env) (pytest_args : list str) (silent : bool)
  : result (option str) :=
  if silent then
    match _run_pytest_collect E 0 pytest_args with
    | Ok path => Ok path
    | Raise e =>
        if caught_when_silent e then _run_pytest_collect E 1 pytest_args
        else Raise e
    end
  else _run_pytest_collect E 0 pytest_args.

(** ** The argument merger *)

(** The values of the argument structure. *)
Inductive value : Type :=
  | VNone
  | VBool (b : bool)
  | VInt (n : Z)
  | VStr (s : str)
  | VList (l : list str).

(** [bool(v)]. *)
Definition truthy (v : value) : bool :=
  match v with
  | VNone => false
  | VBool b => b
  | VInt n => negb (n =? 0)%Z
  | VStr s => match s with [] => false | _ => true end
  | VList l => match l with [] => false | _ => true end
  end.

Definition of_getval (g : getval) : value :=
  match g with
  | GStr s => VStr s
  | GList l => VList l
  end.

Definition pytest_watch : str := py "pytest-watch".

Section Merger.

(** The three methods of the parser that the loop calls, on the section
    [pytest-watch]. *)
Variable config_has_option : str -> bool.
Variable config_get : str -> result getval.
Variable config_getboolean : str -> result bool.

(** The body of the loop for one [cli_name]. *)
Definition merge_option (args : dict value) (cli_name : str)
  : result (dict value) :=
  if negb (startswith CLI_OPTION_PREFIX cli_name) then Ok args
  else
    let config_name := skipn (List.length CLI_OPTION_PREFIX) cli_name in
    match getitem args cli_name with
    | None => Raise KeyError
    | Some current =>
        if truthy current then Ok args
        else if negb (config_has_option config_name) then Ok args
        else
          match current with
          | VList l =>
              v <- config_get config_name ;;
              match v with
              | GList items => Ok (setitem args cli_name (VList (l ++ items)))
              | GStr item => Ok (setitem args cli_name (VList (l ++ [item])))
              end
          | VBool _ =>
              b <- config_getboolean config_name ;;
              Ok (setitem args cli_name (VBool b))
          | _ =>
              v <- config_get config_name ;;
              Ok (setitem args cli_name (of_getval v))
          end
    end.

(** [for cli_name in args: ...]: the argument structure after the loop and
    the exception that ended it, if any. *)
Fixpoint merge_loop (names : list str) (args : dict value)
  : dict value * option exn :=
  match names with
  | [] => (args, None)
  | cli_name :: rest =>
      match merge_option args cli_name with
      | Ok args' => merge_loop rest args'
      | Raise e => (args, Some e)
      end
  end.

End Merger.

(** How a call of [merge_config] ends, and the argument structure (which is
    mutated in place) at that point. *)
Inductive outcome : Type :=
  | Returned (b : bool) (args : dict value)
  | Raised (e : exn) (args : dict value).

Definition final_args (o : outcome) : dict value :=
  match o with
  | Returned _ args => args
  | Raised _ args => args
  end.

(** The part of [merge_config] that follows the discovery of a config
    path. *)
Definition merge_from (body : config -> str -> str -> result str)
    (opener : str -> file) (args : dict value) (config_path : str)
  : outcome :=
  match read opener config_path with
  | Raise e => Raised e args
  | Ok config =>
      if negb (has_section config pytest_watch) then Returned true args
      else
        match merge_loop (has_option config pytest_watch)
                (fun name => get body config pytest_watch name
                               (PBool false) PNone PNone)
                (getboolean body config pytest_watch)
                (keys args) args with
        | (args', None) => Returned true args'
        | (args', Some e) => Raised e args'
        end
  end.

Definition merge_config (body : config -> str -> str -> result str)
    (E : env) (args : dict value) (pytest_args : list str)
    (silent verbose : bool) : outcome :=
  match _collect_config E pytest_args silent with
  | Raise KeyboardInterrupt | Raise CollectError => Returned false args
  | Raise e => Raised e args
  | Ok config_path =>
      match config_path with
      | Some (c :: p) => merge_from body (open_file E) args (c :: p)
      | _ => Returned true args                       (* not config_path *)
      end
  end.

(* ================================================================== *)
(** * Inputs used in the examples *)
(* ================================================================== *)

(** The lookup that the body of [RawConfigParser.get] performs for a value
    without interpolation: the section, then the defaults. *)
Definition lookup_body (cfg : config) (section option : str) : result str :=
  match (if str_eqb section default_section then Some []
         else getitem (_sections cfg) section) with
  | None => Raise NoSectionError
  | Some options =>
      match getitem options (lower option) with
      | Some v => Ok v
      | None =>
          match getitem (_defaults cfg) (lower option) with
          | Some v => Ok v
          | None => Raise NoOptionError
          end
      end
  end.

Definition ini_path : str := py "pytest.ini".

(** A file system with one file. *)
Definition one_file (path content : str) : str -> file :=
  fun p => if str_eqb p path then FileText content else FileOSError.

(** A test runner that resolves [inifile] and finishes with [exit_code] on
    every call, with the exit codes of pytest (0, 2 and 5). *)
Definition simple_env (inifile : option str) (exit_code : Z)
    (files : str -> file) : env :=
  Env 0 2 5 (fun _ _ => PytestRun (Some inifile) (Exit exit_code)) files.

(** The runner resolves [pytest.ini], which holds [content]. *)
Definition env_with_ini (content : str) : env :=
  simple_env (Some ini_path) 0 (one_file ini_path content).

(** The header of [pytest-watch] followed by the line that binds [ignore]
    to the bracketed list of the double-quoted items a and b. *)
Definition ini_bracketed_ignore : str :=
  py "[pytest-watch]" ++ [nl] ++
  py "ignore = [ " ++ [dquote] ++ py "a" ++ [dquote] ++ py ", "
  ++ [dquote] ++ py "b" ++ [dquote] ++ py " ]".

(** [opt = [a, b, c]] and its native multi-line spelling. *)
Definition ini_bracketed_abc : str :=
  py "[pytest-watch]" ++ [nl] ++ py "opt = [a, b, c]".

Definition ini_continuation_abc : str :=
  py "[pytest-watch]" ++ [nl] ++ py "opt = a" ++ [nl] ++ py "    b" ++ [nl]
  ++ py "    c".

(** [opt] with the two lines y and z. *)
Definition ini_opt_y_z : str :=
  py "[pytest-watch]" ++ [nl] ++ py "opt = y" ++ [nl] ++ py "    z".

(** A file without section header. *)
Definition ini_headerless : str := py "runner = pytest".

(** The predicate of a character that is white space or a quote. *)
Definition space_or_quote (c : ascii) : bool :=
  isspace c || Ascii.eqb c dquote || Ascii.eqb c squote.

(** [s] starts or ends with a character of the class [p]. *)
Definition begins_or_ends_with (p : ascii -> bool) (s : str) : bool :=
  match s with [] => false | c :: _ => p c end
  || match rev s with [] => false | c :: _ => p c end.

(** The spellings [_convert_to_boolean] maps to [True] and to [False]. *)
Definition true_spellings : list str :=
  [py "1"; py "yes"; py "true"; py "on"].
Definition false_spellings : list str :=
  [py "0"; py "no"; py "false"; py "off"].

(** The section [pytest-watch] with [clear] bound to a string that is no
    boolean spelling. *)
Definition ini_clear_maybe : str :=
  py "[pytest-watch]" ++ [nl] ++ py "clear = maybe".

(** A file with a section and a line that is neither header, option nor
    continuation. *)
Definition ini_unparsable : str := py "[tool]" ++ [nl] ++ py "name".


(** An item token: white space, [n] double quotes, [k] single quotes, a
    core, [l] single quotes, [m] double quotes, white space. *)
Definition quoted (n k : nat) (core : str) (l m : nat) : str :=
  copies n dquote ++ copies k squote ++ core
  ++ copies l squote ++ copies m dquote.

Definition item_token (ws1 : str) (n k : nat) (core : str) (l m : nat)
    (ws2 : str) : str :=
  ws1 ++ quoted n k core l m ++ ws2.

(* ================================================================== *)
(** * Notions used to state further properties *)
(* ================================================================== *)

(** The argument vector of the dry run. *)
Definition collect_argv (pytest_args : list str) : list str :=
  pytest_args ++ [py "--collect-only"].

(** An option the loop of [merge_config] goes on to fetch from the parser:
    prefixed, bound to a falsy value, and defined in the section. *)
Definition option_to_merge (cfg : config) (args : dict value) (cli_name : str)
  : bool :=
  startswith CLI_OPTION_PREFIX cli_name
  && match getitem args cli_name with
     | Some current =>
         negb (truthy current)
         && has_option cfg pytest_watch
              (skipn (List.length CLI_OPTION_PREFIX) cli_name)
     | None => false
     end.

Section MergedValue.

Variable config_has_option : str -> bool.
Variable config_get : str -> result getval.
Variable config_getboolean : str -> result bool.

(** What one pass of the loop body makes of the value [current] bound to
    [cli_name]. *)
Definition merged_value (cli_name : str) (current : value) : result value :=
  if negb (startswith CLI_OPTION_PREFIX cli_name) then Ok current
  else if truthy current then Ok current
  else if negb (config_has_option
                  (skipn (List.length CLI_OPTION_PREFIX) cli_name))
  then Ok current
  else
    match current with
    | VList l =>
        v <- config_get (skipn (List.length CLI_OPTION_PREFIX) cli_name) ;;
        match v with
        | GList items => Ok (VList (l ++ items))
        | GStr item => Ok (VList (l ++ [item]))
        end
    | VBool _ =>
        b <- config_getboolean
               (skipn (List.length CLI_OPTION_PREFIX) cli_name) ;;
        Ok (VBool b)
    | _ =>
        v <- config_get (skipn (List.length CLI_OPTION_PREFIX) cli_name) ;;
        Ok (of_getval v)
    end.

(** One pass over the entries from left to right, each rewritten on its
    own, up to the first exception. *)
Fixpoint merge_entries (entries : dict value) : dict value * option exn :=
  match entries with
  | [] => ([], None)
  | (cli_name, current) :: rest =>
      match merged_value cli_name current with
      | Ok new =>
          let '(rest', e) := merge_entries rest in
          ((cli_name, new) :: rest', e)
      | Raise e => ((cli_name, current) :: rest, Some e)
      end
  end.

End MergedValue.

(** Getters of a parser that returns what it holds, the multi-line values
    as lists of lines: stand-ins for a parser object whose getters work. *)
Definition lookup_get (cfg : config) (name : str) : result getval :=
  v <- lookup_body cfg pytest_watch name ;;
  Ok (if char_in v nl then GList (split nl v) else GStr v).

Definition lookup_getboolean (cfg : config) (name : str) : result bool :=
  v <- lookup_body cfg pytest_watch name ;;
  _convert_to_boolean v.

(** A parsed file whose section binds [ignore] to two lines, [runner] and
    [nobeep]. *)
Definition cfg_sample : config :=
  Config [(pytest_watch,
           [(py "ignore", py "build" ++ [nl] ++ py "dist");
            (py "runner", py "tox");
            (py "nobeep", py "yes")])] [].

(** An argument structure: a runner given on the command line, an empty
    list, a flag that is off, and a positional argument. *)
Definition args_sample : dict value :=
  [(py "--runner", VStr (py "pytest"));
   (py "--ignore", VList []);
   (py "--nobeep", VBool false);
   (py "<directories>", VList [])].

(** What [_read] relies on when it writes [cursect[optname]]: the current
    section exists, and the current option is one of its keys. *)
Definition reader_ok (rd : reader) : Prop :=
  match cursect rd with
  | None => True
  | Some cur =>
      exists d, get_cursect rd cur = Some d /\
        match current_option rd with
        | None => True
        | Some opt => exists lines, getitem d opt = Some lines
        end
  end.

(** The exceptions of [configparser] that reading a file can raise. *)
Definition reading_errors : list exn :=
  [MissingSectionHeaderError; DuplicateSectionError; DuplicateOptionError;
   ParsingError].

(** A blank or a comma. *)
Definition space_or_comma (c : ascii) : bool :=
  isspace c || Ascii.eqb c ","%char.

(** A line-start assignment of a bracketed array: white space, a name, white
    space, the equals sign, white space; then the bracketed items. *)
Definition array_key (ws1 name ws2 ws3 : str) : str :=
  ws1 ++ name ++ ws2 ++ "="%char :: ws3.

Definition array_assignment (ws1 name ws2 ws3 items : str) : str :=
  array_key ws1 name ws2 ws3 ++ "["%char :: items ++ ["]"%char].

(** [x] is [s] without its leading and trailing characters of the class
    [p]: what was cut off on either side is made of such characters only,
    and what is left neither starts nor ends with one. *)
Definition stripped (p : ascii -> bool) (s x : str) : Prop :=
  exists a b,
    s = a ++ x ++ b /\ forallb p a = true /\ forallb p b = true /\
    begins_or_ends_with p x = false.

(** The class of the double quote and the class of the single quote. *)
Definition is_dquote (c : ascii) : bool := char_in [dquote] c.
Definition is_squote (c : ascii) : bool := char_in [squote] c.

(** The items a token between two commas contributes, given what is left of
    it after white space is removed ([x1]) and after the quotes are removed
    as well ([x3]). *)
Definition items_of_token (x1 x3 : str) : list str :=
  match x1 with
  | [] => []
  | _ => [x3]
  end.

(** The six spellings of a boolean that the specification names. *)
Definition named_spellings : list str :=
  [py "true"; py "false"; py "yes"; py "no"; py "1"; py "0"].

(** The section [pytest-watch] with [clear] bound to [spelling]. *)
Definition ini_clear (spelling : str) : str :=
  py "[pytest-watch]" ++ [nl] ++ py "clear = " ++ spelling.

(** The dry run that decides a merge: the only one, or the retry when the
    silenced run ended with an exception that the handler catches. *)
Definition last_attempt (E : env) (pytest_args : list str) (silent : bool)
  : nat :=
  if silent then
    match _run_pytest_collect E 0 pytest_args with
    | Ok _ => 0
    | Raise e => if caught_when_silent e then 1 else 0
    end
  else 0.

(** A runner that resolves no ini file and is interrupted in its first run
    only. *)
Definition interrupted_once : env :=
  Env 0 2 5
    (fun call _ =>
       PytestRun (Some None) (Exit (match call with O => 2 | _ => 0 end)%Z))
    (fun _ => FileOSError).

(** A file in which an option without value comes right before the header
    of [pytest-watch]: no value in it is written in brackets. *)
Definition ini_empty_option_before_section : str :=
  py "[pytest]" ++ [nl] ++ py "addopts =" ++ [nl]
  ++ py "[pytest-watch]" ++ [nl] ++ py "runner = tox" ++ [nl].

(* ================================================================== *)
(** * Properties *)
(* ================================================================== *)

Unset Implicit Arguments.

(** ** Strings and dicts *)

Lemma str_eqb_refl (s : str) : str_eqb s s = true.
Proof.
  induction s as [|c s IH]; simpl; [reflexivity|].
  now rewrite Ascii.eqb_refl, IH.
Qed.

Lemma str_eqb_eq (a b : str) : str_eqb a b = true <-> a = b.
Proof.
  split.
  - revert b; induction a as [|x a IH]; intros [|y b] H; simpl in H;
      try discriminate; [reflexivity|].
    apply andb_true_iff in H as [Hxy Hab].
    apply Ascii.eqb_eq in Hxy. apply IH in Hab. now subst.
  - intros ->. apply str_eqb_refl.
Qed.

Lemma str_eqb_neq (a b : str) : str_eqb a b = false <-> a <> b.
Proof.
  split.
  - intros H Heq. apply str_eqb_eq in Heq. congruence.
  - intros Hne. destruct (str_eqb a b) eqn:E; [|reflexivity].
    apply str_eqb_eq in E. contradiction.
Qed.

Section DictFacts.
Context {V : Type}.
Implicit Types (d : dict V) (k : str) (v : V).

Lemma getitem_setitem_same d k v : getitem (setitem d k v) k = Some v.
Proof.
  induction d as [|[k' v'] d IH]; simpl.
  - now rewrite str_eqb_refl.
  - destruct (str_eqb k k') eqn:E; simpl; rewrite E; [reflexivity|exact IH].
Qed.

Lemma getitem_setitem_other d k k' v :
  k <> k' -> getitem (setitem d k v) k' = getitem d k'.
Proof.
  intros Hne. induction d as [|[k0 v0] d IH]; simpl.
  - apply not_eq_sym in Hne. apply str_eqb_neq in Hne. now rewrite Hne.
  - destruct (str_eqb k k0) eqn:E; simpl.
    + apply str_eqb_eq in E. subst k0.
      apply not_eq_sym in Hne. apply str_eqb_neq in Hne. now rewrite Hne.
    + now rewrite IH.
Qed.

Lemma keys_setitem_present d k v v0 :
  getitem d k = Some v0 -> keys (setitem d k v) = keys d.
Proof.
  unfold keys. induction d as [|[k' v'] d IH]; simpl; [discriminate|].
  destruct (str_eqb k k') eqn:E; simpl; intros H.
  - reflexivity.
  - now rewrite IH.
Qed.

Lemma getitem_in_keys d k v : getitem d k = Some v -> In k (keys d).
Proof.
  unfold keys. induction d as [|[k' v'] d IH]; simpl; [discriminate|].
  destruct (str_eqb k k') eqn:E; intros H.
  - left. apply str_eqb_eq in E. now subst.
  - right. now apply IH.
Qed.

End DictFacts.

(** ** The loop of the merger, for any parser *)

Section MergerFacts.
Variable config_has_option : str -> bool.
Variable config_get : str -> result getval.
Variable config_getboolean : str -> result bool.

Let step := merge_option config_has_option config_get config_getboolean.
Let loop := merge_loop config_has_option config_get config_getboolean.

(** A step either leaves the argument structure alone or rebinds
    [cli_name], whose value was falsy. *)
Lemma merge_option_effect (args args' : dict value) (cli_name : str) :
  step args cli_name = Ok args' ->
  args' = args \/
  exists old new, getitem args cli_name = Some old /\ truthy old = false /\
                  args' = setitem args cli_name new.
Proof.
  unfold step, merge_option.
  destruct (startswith CLI_OPTION_PREFIX cli_name); simpl;
    [|intros [= <-]; now left].
  destruct (getitem args cli_name) as [old|] eqn:Hget; [|discriminate].
  destruct (truthy old) eqn:Ht; [intros [= <-]; now left|].
  destruct (config_has_option _); simpl; [|intros [= <-]; now left].
  intros H. right. exists old.
  destruct old as [|b|n|s|l];
    try (destruct (config_get _) as [g|]; simpl in H; [|discriminate]);
    try (destruct (config_getboolean _) as [b'|]; simpl in H; [|discriminate]);
    try (destruct g); injection H as <-; eexists; split; eauto.
Qed.

Lemma merge_option_keys (args args' : dict value) (cli_name : str) :
  step args cli_name = Ok args' -> keys args' = keys args.
Proof.
  intros H. apply merge_option_effect in H as [->|(old & new & Hg & _ & ->)].
  - reflexivity.
  - eapply keys_setitem_present; eauto.
Qed.

Lemma merge_option_truthy (args args' : dict value) (cli_name name : str)
    (v : value) :
  step args cli_name = Ok args' ->
  getitem args name = Some v -> truthy v = true ->
  getitem args' name = Some v.
Proof.
  intros H Hv Ht.
  apply merge_option_effect in H as [->|(old & new & Hg & Hf & ->)];
    [assumption|].
  rewrite getitem_setitem_other; [assumption|].
  intros ->. rewrite Hv in Hg. injection Hg as ->. congruence.
Qed.

Lemma merge_loop_keys (names : list str) (args : dict value) :
  keys (fst (loop names args)) = keys args.
Proof.
  revert args. induction names as [|n names IH]; intros args; simpl.
  - reflexivity.
  - fold step. destruct (step args n) as [args'|e] eqn:E; simpl.
    + fold loop. rewrite IH. now apply merge_option_keys with n.
    + reflexivity.
Qed.

Lemma merge_loop_truthy (names : list str) (args : dict value) (name : str)
    (v : value) :
  getitem args name = Some v -> truthy v = true ->
  getitem (fst (loop names args)) name = Some v.
Proof.
  revert args. induction names as [|n names IH]; intros args Hv Ht; simpl.
  - assumption.
  - fold step. destruct (step args n) as [args'|e] eqn:E; simpl.
    + fold loop. apply IH; [|assumption].
      now apply merge_option_truthy with args n.
    + assumption.
Qed.

(** By design a step appends the items of the parser's value to a list that
    is empty, for a parser whose [get] returns. *)
Lemma merge_option_extends_empty_list (args : dict value)
    (config_name : str) (items : list str) :
  getitem args (CLI_OPTION_PREFIX ++ config_name) = Some (VList []) ->
  config_has_option config_name = true ->
  config_get config_name = Ok (GList items) ->
  step args (CLI_OPTION_PREFIX ++ config_name)
  = Ok (setitem args (CLI_OPTION_PREFIX ++ config_name) (VList items)).
Proof.
  intros Hg Hh Hget. unfold step, merge_option.
  replace (startswith CLI_OPTION_PREFIX (CLI_OPTION_PREFIX ++ config_name))
    with true by reflexivity.
  simpl negb. cbv iota. rewrite Hg. simpl truthy. cbv iota.
  replace (skipn (List.length CLI_OPTION_PREFIX)
                 (CLI_OPTION_PREFIX ++ config_name))
    with config_name by reflexivity.
  rewrite Hh. simpl negb. cbv iota. rewrite Hget. reflexivity.
Qed.

End MergerFacts.

(** ** [merge_config] *)

(** The argument structure after [merge_config] is the one it was given, or
    the result of the loop run against the parsed file. *)
Lemma merge_config_final_args (body : config -> str -> str -> result str)
    (E : env) (args : dict value) (pytest_args : list str)
    (silent verbose : bool) :
  final_args (merge_config body E args pytest_args silent verbose) = args \/
  exists cfg,
    final_args (merge_config body E args pytest_args silent verbose)
    = fst (merge_loop (has_option cfg pytest_watch)
             (fun name => get body cfg pytest_watch name
                            (PBool false) PNone PNone)
             (getboolean body cfg pytest_watch) (keys args) args).
Proof.
  unfold merge_config.
  destruct (_collect_config E pytest_args silent) as [[[|c p]|]|e].
  - now left.
  - unfold merge_from.
    destruct (read (open_file E) (c :: p)) as [cfg|e]; [|now left].
    destruct (has_section cfg pytest_watch); simpl; [|now left].
    right. exists cfg.
    now destruct (merge_loop _ _ _ (keys args) args) as [args' [e|]].
  - now left.
  - destruct e; now left.
Qed.

(** C6. CLI precedence: an option whose value is truthy when [merge_config]
    is called is bound to the same value when the call ends, however it
    ends and whatever the config section defines. *)
Theorem merge_keeps_truthy_values
    (body : config -> str -> str -> result str) (E : env)
    (args : dict value) (pytest_args : list str) (silent verbose : bool)
    (name : str) (v : value) :
  getitem args name = Some v ->
  truthy v = true ->
  getitem (final_args (merge_config body E args pytest_args silent verbose))
          name = Some v.
Proof.
  intros Hv Ht.
  destruct (merge_config_final_args body E args pytest_args silent verbose)
    as [-> | [cfg ->]].
  - assumption.
  - now apply merge_loop_truthy.
Qed.

(** C8. Key-set invariant: the keys of the argument structure, in order,
    are the same before and after [merge_config], however the call ends. *)
Theorem merge_preserves_keys
    (body : config -> str -> str -> result str) (E : env)
    (args : dict value) (pytest_args : list str) (silent verbose : bool) :
  keys (final_args (merge_config body E args pytest_args silent verbose))
  = keys args.
Proof.
  destruct (merge_config_final_args body E args pytest_args silent verbose)
    as [-> | [cfg ->]].
  - reflexivity.
  - apply merge_loop_keys.
Qed.

(** C2 (amended). A list that is not empty when [merge_config] is called is
    left as it is: nothing from the config section is appended to it. *)
Theorem merge_keeps_nonempty_list
    (body : config -> str -> str -> result str) (E : env)
    (args : dict value) (pytest_args : list str) (silent verbose : bool)
    (name x : str) (l : list str) :
  getitem args name = Some (VList (x :: l)) ->
  getitem (final_args (merge_config body E args pytest_args silent verbose))
          name = Some (VList (x :: l)).
Proof.
  intros Hv.
  destruct (merge_config_final_args body E args pytest_args silent verbose)
    as [-> | [cfg ->]].
  - assumption.
  - now apply merge_loop_truthy.
Qed.

(** [MultiLineConfigParser.get] never gets past the call of [super().get]:
    five positional arguments do not bind. *)
Lemma get_raises_TypeError (body : config -> str -> str -> result str)
    (cfg : config) (section option : str) (raw vars fallback : pyobj) :
  get body cfg section option raw vars fallback = Raise TypeError.
Proof. reflexivity. Qed.

Lemma getboolean_raises_TypeError
    (body : config -> str -> str -> result str) (cfg : config)
    (section option : str) :
  getboolean body cfg section option = Raise TypeError.
Proof. reflexivity. Qed.

(** A dry run that completes with the exit code [EXIT_INTERRUPTED] raises
    [KeyboardInterrupt]. *)
Lemma run_pytest_collect_interrupted (E : env) (call : nat)
    (pytest_args : list str) :
  snd (main_with_plugin (pytest_main E call (collect_argv pytest_args)))
  = Exit (EXIT_INTERRUPTED E) ->
  _run_pytest_collect E call pytest_args = Raise KeyboardInterrupt.
Proof.
  unfold _run_pytest_collect, collect_argv. intros H.
  destruct (main_with_plugin _) as [path ended]. simpl in H. subst ended.
  now rewrite Z.eqb_refl.
Qed.

(** C9 (amended).  When the dry run that decides the merge completes with
    the exit code [EXIT_INTERRUPTED], [merge_config] returns [False] and
    leaves the argument structure alone.  The deciding run is the only one
    when [silent] is off; when [silent] is on and the silenced run ended
    with an exception that the handler catches, it is the retry. *)
Theorem merge_interrupted_last_attempt_returns_false
    (body : config -> str -> str -> result str) (E : env)
    (args : dict value) (pytest_args : list str) (silent verbose : bool) :
  snd (main_with_plugin
         (pytest_main E (last_attempt E pytest_args silent)
                      (collect_argv pytest_args)))
  = Exit (EXIT_INTERRUPTED E) ->
  merge_config body E args pytest_args silent verbose = Returned false args.
Proof.
  intros H. apply run_pytest_collect_interrupted in H.
  unfold merge_config, _collect_config. unfold last_attempt in H.
  destruct silent; [|now rewrite H].
  destruct (_run_pytest_collect E 0 pytest_args) as [path|e] eqn:E0.
  - change (_run_pytest_collect E 0 pytest_args = Raise KeyboardInterrupt)
      in H.
    rewrite E0 in H. discriminate.
  - destruct (caught_when_silent e) eqn:Hc; [now rewrite H|].
    rewrite E0 in H. injection H as ->. discriminate.
Qed.

(** A runner that ends every call with exit code 2, the interrupted one:
    the silenced run is caught, and the retry decides. *)
Lemma merge_interrupted_last_attempt_returns_false_witness :
  snd (main_with_plugin
         (pytest_main (simple_env None 2 (fun _ => FileOSError))
            (last_attempt (simple_env None 2 (fun _ => FileOSError))
                          [py "tests"] true)
            (collect_argv [py "tests"])))
  = Exit (EXIT_INTERRUPTED (simple_env None 2 (fun _ => FileOSError))) /\
  last_attempt (simple_env None 2 (fun _ => FileOSError)) [py "tests"] true
  = 1 /\
  merge_config lookup_body (simple_env None 2 (fun _ => FileOSError))
    [(py "--ignore", VList [])] [py "tests"] true false
  = Returned false [(py "--ignore", VList [])].
Proof.
  refine (conj eq_refl (conj eq_refl _)).
  exact (merge_interrupted_last_attempt_returns_false lookup_body
           (simple_env None 2 (fun _ => FileOSError))
           [(py "--ignore", VList [])] [py "tests"] true false eq_refl).
Defined.

(** C9 (counterexample).  With [silent] on, a first dry run that completes
    with the exit code [EXIT_INTERRUPTED] does not make [merge_config]
    return [False]: the [KeyboardInterrupt] is caught in [_collect_config],
    the run is repeated, and the retry, which here ends with exit code 0
    and no ini file, gives [True]. *)
Lemma merge_interrupted_silenced_run_returns_true :
  snd (main_with_plugin (pytest_main interrupted_once 0 (collect_argv [])))
  = Exit (EXIT_INTERRUPTED interrupted_once) /\
  _run_pytest_collect interrupted_once 0 [] = Raise KeyboardInterrupt /\
  merge_config lookup_body interrupted_once [(py "--ignore", VList [])] []
    true false
  = Returned true [(py "--ignore", VList [])].
Proof. repeat split. Qed.

(** ** Normalisation of array values *)

Lemma sub_from_no_match (r : regex) (repl : matched -> str) (s : str)
    (start : nat) (bol : bool) :
  search_from r start bol s = None -> sub_from r repl 0 bol s = s.
Proof.
  revert start bol. induction s as [|c s IH]; intros start bol H; simpl.
  - reflexivity.
  - simpl in H. destruct (match_here r bol (c :: s)); [discriminate|].
    f_equal. now apply IH with (S start).
Qed.

(** C10.  The normalisation rewrites content that holds no bracketed value.
    In [ini_empty_option_before_section] the inherited reader finds two
    sections, [pytest] with an empty [addopts] and [pytest-watch] with
    [runner]; the white space that [array_pattern] allows after the equals
    sign runs over the end of the line, so the header of [pytest-watch]
    is taken for the array of [addopts] and loses its brackets.  The reader
    then rejects the line, and [merge_config] raises [ParsingError]. *)
Theorem normalize_rewrites_section_header
    (body : config -> str -> str -> result str) (pytest_args : list str)
    (silent verbose : bool) :
  _read ini_empty_option_before_section
  = Ok (Config [(py "pytest", [(py "addopts", [])]);
                (py "pytest-watch", [(py "runner", py "tox")])] []) /\
  normalize ini_empty_option_before_section
  = py "[pytest]" ++ [nl] ++ py "addopts =" ++ [nl]
    ++ py "pytest-watch" ++ [nl] ++ py "runner = tox" ++ [nl] /\
  normalize ini_empty_option_before_section
  <> ini_empty_option_before_section /\
  read (one_file ini_path ini_empty_option_before_section) ini_path
  = Raise ParsingError /\
  merge_config body (env_with_ini ini_empty_option_before_section)
    [(py "--runner", VNone)] pytest_args silent verbose
  = Raised ParsingError [(py "--runner", VNone)].
Proof.
  split; [vm_compute; reflexivity|]. split; [vm_compute; reflexivity|].
  split; [vm_compute; discriminate|]. split; [vm_compute; reflexivity|].
  destruct silent; vm_compute; reflexivity.
Qed.

(** ** Discovery, reading, and how [merge_config] ends *)


(** C5 (amended). A [KeyboardInterrupt] or [CollectError] that leaves the
    discovery makes [merge_config] return [False]; an exception raised
    while the located file is read, or by a getter of the parser inside the
    loop, is not handled: it leaves [merge_config] as it is.  The argument
    structure is unchanged in the first two cases. *)
Theorem merge_error_propagation
    (body : config -> str -> str -> result str) (E : env)
    (args : dict value) (pytest_args : list str) (silent verbose : bool) :
  (forall e,
     _collect_config E pytest_args silent = Raise e ->
     e = KeyboardInterrupt \/ e = CollectError ->
     merge_config body E args pytest_args silent verbose
     = Returned false args) /\
  (forall path e,
     _collect_config E pytest_args silent = Ok (Some path) ->
     path <> [] ->
     read (open_file E) path = Raise e ->
     merge_config body E args pytest_args silent verbose = Raised e args) /\
  (forall path cfg e args',
     _collect_config E pytest_args silent = Ok (Some path) ->
     path <> [] ->
     read (open_file E) path = Ok cfg ->
     has_section cfg pytest_watch = true ->
     merge_loop (has_option cfg pytest_watch)
       (fun name => get body cfg pytest_watch name (PBool false) PNone PNone)
       (getboolean body cfg pytest_watch) (keys args) args
     = (args', Some e) ->
     merge_config body E args pytest_args silent verbose = Raised e args').
Proof.
  split; [|split].
  - intros e Hc He. unfold merge_config. rewrite Hc.
    destruct He as [-> | ->]; reflexivity.
  - intros path e Hc Hp Hr. unfold merge_config. rewrite Hc.
    destruct path as [|c p]; [contradiction|].
    unfold merge_from. now rewrite Hr.
  - intros path cfg e args' Hc Hp Hr Hs Hl. unfold merge_config. rewrite Hc.
    destruct path as [|c p]; [contradiction|].
    unfold merge_from. now rewrite Hr, Hs, Hl.
Qed.

(** ** Boolean coercion *)

Ltac spelling_found E :=
  apply str_eqb_eq in E; rewrite E; split; [cbn [In]; auto 10|reflexivity].

(** The inherited coercion on its own: [_convert_to_boolean] accepts the
    spellings 1, yes, true and on as [True] and 0, no, false and off as
    [False], in any mix of upper and lower case, and raises [ValueError] for
    every other string. *)
Lemma convert_to_boolean_spellings (s : str) :
  (In (lower s) true_spellings /\ _convert_to_boolean s = Ok true) \/
  (In (lower s) false_spellings /\ _convert_to_boolean s = Ok false) \/
  (~ In (lower s) (true_spellings ++ false_spellings) /\
   _convert_to_boolean s = Raise ValueError).
Proof.
  unfold _convert_to_boolean, BOOLEAN_STATES, true_spellings,
    false_spellings.
  set (t := lower s). cbn [getitem].
  destruct (str_eqb t (py "1")) eqn:E1; [left; spelling_found E1|].
  destruct (str_eqb t (py "yes")) eqn:E2; [left; spelling_found E2|].
  destruct (str_eqb t (py "true")) eqn:E3; [left; spelling_found E3|].
  destruct (str_eqb t (py "on")) eqn:E4; [left; spelling_found E4|].
  destruct (str_eqb t (py "0")) eqn:E5; [right; left; spelling_found E5|].
  destruct (str_eqb t (py "no")) eqn:E6; [right; left; spelling_found E6|].
  destruct (str_eqb t (py "false")) eqn:E7; [right; left; spelling_found E7|].
  destruct (str_eqb t (py "off")) eqn:E8; [right; left; spelling_found E8|].
  right; right. split; [|reflexivity].
  apply str_eqb_neq in E1, E2, E3, E4, E5, E6, E7, E8.
  cbn [In app]. intros [H|[H|[H|[H|[H|[H|[H|[H|[]]]]]]]]]; congruence.
Qed.

(** C3.  No spelling reaches the coercion.  For each of the six spellings
    true, false, yes, no, 1 and 0 the file that binds [clear] to it is read,
    the option is found with that text, and the inherited coercion would
    accept the text; yet [getboolean] goes through the overridden [get],
    whose call of the inherited [get] raises [TypeError], and so does
    [merge_config], with [--clear] left at [False]. *)
Theorem boolean_option_raises_TypeError
    (body : config -> str -> str -> result str) (spelling : str)
    (pytest_args : list str) (silent verbose : bool) :
  In spelling named_spellings ->
  (cfg <- read (one_file ini_path (ini_clear spelling)) ini_path ;;
   Ok (has_option cfg pytest_watch (py "clear"),
       lookup_body cfg pytest_watch (py "clear")))
  = Ok (true, Ok spelling) /\
  (exists b, _convert_to_boolean spelling = Ok b) /\
  (cfg <- read (one_file ini_path (ini_clear spelling)) ini_path ;;
   getboolean body cfg pytest_watch (py "clear")) = Raise TypeError /\
  merge_config body (env_with_ini (ini_clear spelling))
    [(py "--clear", VBool false)] pytest_args silent verbose
  = Raised TypeError [(py "--clear", VBool false)].
Proof.
  unfold named_spellings. cbn [In].
  intros [<-|[<-|[<-|[<-|[<-|[<-|[]]]]]]];
    (split; [vm_compute; reflexivity|];
     split; [eexists; vm_compute; reflexivity|];
     split; [vm_compute; reflexivity|];
     destruct silent; vm_compute; reflexivity).
Qed.

(** The file with the line that binds [clear] to true. *)
Lemma boolean_option_raises_TypeError_witness :
  In (py "true") named_spellings /\
  (cfg <- read (one_file ini_path (ini_clear (py "true"))) ini_path ;;
   Ok (has_option cfg pytest_watch (py "clear"),
       lookup_body cfg pytest_watch (py "clear")))
  = Ok (true, Ok (py "true")) /\
  (exists b, _convert_to_boolean (py "true") = Ok b) /\
  (cfg <- read (one_file ini_path (ini_clear (py "true"))) ini_path ;;
   getboolean lookup_body cfg pytest_watch (py "clear")) = Raise TypeError /\
  merge_config lookup_body (env_with_ini (ini_clear (py "true")))
    [(py "--clear", VBool false)] [] true false
  = Raised TypeError [(py "--clear", VBool false)].
Proof.
  assert (H : In (py "true") named_spellings) by (left; reflexivity).
  refine (conj H _).
  exact (boolean_option_raises_TypeError lookup_body (py "true") [] true
           false H).
Defined.

(** ** Items of a bracketed array *)

Section StripFacts.
Variable p : ascii -> bool.

Lemma dropwhile_all (a x : str) :
  forallb p a = true -> dropwhile p (a ++ x) = dropwhile p x.
Proof.
  induction a as [|c a IH]; simpl; [reflexivity|].
  intros H. apply andb_true_iff in H as [Hc Ha]. rewrite Hc. now apply IH.
Qed.

Lemma dropwhile_all_nil (a : str) : forallb p a = true -> dropwhile p a = [].
Proof.
  intros H. rewrite <- (app_nil_r a). now rewrite dropwhile_all.
Qed.

Lemma forallb_rev (a : str) : forallb p a = true -> forallb p (rev a) = true.
Proof.
  rewrite !forallb_forall. intros H x Hx. apply H. now apply in_rev.
Qed.

Lemma dropwhile_stops (x y : str) :
  match x with [] => false | c :: _ => p c end = false ->
  x <> [] -> dropwhile p (x ++ y) = x ++ y.
Proof.
  destruct x as [|c x]; [contradiction|]. simpl. now intros ->.
Qed.

(** Stripping a class removes a wrapping made of that class from a text
    that neither starts nor ends with it. *)
Lemma strip_by_wrapped (a x b : str) :
  forallb p a = true -> forallb p b = true ->
  begins_or_ends_with p x = false ->
  strip_by p (a ++ x ++ b) = x.
Proof.
  intros Ha Hb Hx. unfold strip_by, lstrip_by, rstrip_by.
  rewrite dropwhile_all by assumption.
  destruct x as [|c x].
  - simpl. rewrite (dropwhile_all_nil b Hb). reflexivity.
  - unfold begins_or_ends_with in Hx.
    apply orb_false_iff in Hx as [Hh Ht].
    rewrite (dropwhile_stops (c :: x) b Hh) by discriminate.
    rewrite rev_app_distr, dropwhile_all by now apply forallb_rev.
    rewrite <- (app_nil_r (rev (c :: x))).
    rewrite (dropwhile_stops (rev (c :: x)) [] Ht).
    + now rewrite app_nil_r, rev_involutive.
    + intros H. apply (f_equal (@List.length ascii)) in H.
      rewrite length_rev in H. discriminate.
Qed.

Lemma starts_wrapped (q : ascii) (n m : nat) (x : str) :
  p q = false ->
  match x with [] => false | c :: _ => p c end = false ->
  match copies n q ++ x ++ copies m q with
  | [] => false
  | c :: _ => p c
  end = false.
Proof.
  intros Hq Hx. destruct n; simpl; [|assumption].
  destruct x; simpl; [|assumption].
  destruct m; simpl; [reflexivity|assumption].
Qed.

(** Wrapping in characters outside the class keeps a text free of the class
    at both ends. *)
Lemma begins_or_ends_with_wrapped (q : ascii) (n m : nat) (x : str) :
  p q = false ->
  begins_or_ends_with p x = false ->
  begins_or_ends_with p (copies n q ++ x ++ copies m q) = false.
Proof.
  intros Hq Hx. apply orb_false_iff in Hx as [Hh Ht].
  unfold begins_or_ends_with. apply orb_false_iff. split.
  - now apply starts_wrapped.
  - rewrite !rev_app_distr, <- app_assoc. unfold copies.
    rewrite !rev_repeat. now apply (starts_wrapped q m n).
Qed.

End StripFacts.

Lemma begins_or_ends_with_weaken (p q : ascii -> bool) (x : str) :
  (forall c, q c = true -> p c = true) ->
  begins_or_ends_with p x = false -> begins_or_ends_with q x = false.
Proof.
  intros Hpq H. apply orb_false_iff in H as [Hh Ht].
  unfold begins_or_ends_with. apply orb_false_iff.
  split; [destruct x as [|c x] | destruct (rev x) as [|c y]];
    try reflexivity;
    (destruct (q c) eqn:E; [apply Hpq in E; congruence | reflexivity]).
Qed.

Lemma split_without_separator (sep : ascii) (s : str) :
  ~ In sep s -> split sep s = [s].
Proof.
  induction s as [|c s IH]; simpl; [reflexivity|].
  intros H. destruct (Ascii.eqb c sep) eqn:E.
  - apply Ascii.eqb_eq in E. exfalso. apply H. now left.
  - rewrite IH; [reflexivity|]. intros Hin. apply H. now right.
Qed.

Lemma split_at_separator (sep : ascii) (a b : str) :
  split sep (a ++ sep :: b) = split sep a ++ split sep b.
Proof.
  induction a as [|c a IH]; simpl.
  - now rewrite Ascii.eqb_refl.
  - destruct (Ascii.eqb c sep); [now rewrite IH|].
    rewrite IH. destruct (split sep a) as [|w ws] eqn:E; [|reflexivity].
    destruct a; simpl in E; [discriminate|].
    destruct (Ascii.eqb a sep); [discriminate|].
    destruct (split sep a0); discriminate.
Qed.

(** The items of a comma-separated text are those of its two sides. *)
Lemma array_items_at_comma (a b : str) :
  array_items (a ++ ","%char :: b) = array_items a ++ array_items b.
Proof.
  unfold array_items.
  now rewrite split_at_separator, filter_app, map_app.
Qed.

Lemma space_is_not_comma (ws : str) :
  forallb isspace ws = true -> ~ In ","%char ws.
Proof.
  intros H Hin. rewrite forallb_forall in H. apply H in Hin. discriminate.
Qed.

Lemma copies_without (q c : ascii) (n : nat) : c <> q -> ~ In c (copies n q).
Proof.
  intros Hne Hin. apply repeat_spec in Hin. congruence.
Qed.

Lemma item_token_without_comma (ws1 ws2 core : str) (n k l m : nat) :
  forallb isspace ws1 = true -> forallb isspace ws2 = true ->
  ~ In ","%char core ->
  ~ In ","%char (item_token ws1 n k core l m ws2).
Proof.
  intros H1 H2 Hc Hin. unfold item_token, quoted in Hin.
  repeat (apply in_app_or in Hin as [Hin|Hin]);
    try (now apply space_is_not_comma in Hin);
    try (now apply copies_without in Hin);
    contradiction.
Qed.

(** What the three strips of [_replace_array] leave of an item token. *)
Lemma strips_of_item_token (ws1 ws2 core : str) (n k l m : nat) :
  forallb isspace ws1 = true -> forallb isspace ws2 = true ->
  begins_or_ends_with space_or_quote core = false ->
  strip (item_token ws1 n k core l m ws2) = quoted n k core l m /\
  strip_chars [squote] (strip_chars [dquote] (quoted n k core l m)) = core.
Proof.
  intros H1 H2 Hcore.
  assert (Hsp : begins_or_ends_with isspace core = false).
  { apply begins_or_ends_with_weaken with space_or_quote; [|assumption].
    intros c Hc. unfold space_or_quote. now rewrite Hc. }
  assert (Hdq : begins_or_ends_with (char_in [dquote]) core = false).
  { apply begins_or_ends_with_weaken with space_or_quote; [|assumption].
    intros c Hc. unfold space_or_quote, char_in in *. simpl in Hc.
    rewrite orb_false_r in Hc. rewrite Hc. now rewrite orb_true_r. }
  assert (Hsq : begins_or_ends_with (char_in [squote]) core = false).
  { apply begins_or_ends_with_weaken with space_or_quote; [|assumption].
    intros c Hc. unfold space_or_quote, char_in in *. simpl in Hc.
    rewrite orb_false_r in Hc. rewrite Hc. now rewrite orb_true_r. }
  assert (Hinner : forall p, p squote = false ->
             begins_or_ends_with p core = false ->
             begins_or_ends_with p (copies k squote ++ core ++ copies l squote)
             = false).
  { intros p Hq Hp. now apply begins_or_ends_with_wrapped. }
  split.
  - unfold strip, item_token, quoted.
    replace (copies n dquote ++ copies k squote ++ core
             ++ copies l squote ++ copies m dquote)
      with (copies n dquote ++ (copies k squote ++ core ++ copies l squote)
            ++ copies m dquote)
      by now rewrite <- !app_assoc.
    apply strip_by_wrapped; try assumption.
    apply begins_or_ends_with_wrapped; [reflexivity|].
    now apply Hinner.
  - unfold strip_chars, quoted.
    replace (copies n dquote ++ copies k squote ++ core
             ++ copies l squote ++ copies m dquote)
      with (copies n dquote ++ (copies k squote ++ core ++ copies l squote)
            ++ copies m dquote)
      by now rewrite <- !app_assoc.
    rewrite strip_by_wrapped.
    + apply strip_by_wrapped; try assumption.
      * apply forallb_forall. intros c Hc. apply repeat_spec in Hc.
        now subst.
      * apply forallb_forall. intros c Hc. apply repeat_spec in Hc.
        now subst.
    + apply forallb_forall. intros c Hc. apply repeat_spec in Hc. now subst.
    + apply forallb_forall. intros c Hc. apply repeat_spec in Hc. now subst.
    + now apply Hinner.
Qed.

Lemma array_items_of_item_token (ws1 ws2 core : str) (n k l m : nat) :
  forallb isspace ws1 = true -> forallb isspace ws2 = true ->
  begins_or_ends_with space_or_quote core = false ->
  ~ In ","%char core ->
  array_items (item_token ws1 n k core l m ws2)
  = match quoted n k core l m with [] => [] | _ :: _ => [core] end.
Proof.
  intros H1 H2 Hcore Hc. unfold array_items.
  rewrite split_without_separator
    by now apply item_token_without_comma.
  destruct (strips_of_item_token ws1 ws2 core n k l m H1 H2 Hcore)
    as [Hs Hq].
  cbn [filter]. rewrite Hs.
  remember (quoted n k core l m) as token eqn:E.
  destruct token as [|c token]; [reflexivity|].
  cbn [map]. now rewrite Hs, Hq.
Qed.

(** An item token made of white space around any number of double quotes
    around any number of single quotes around a core is replaced by the
    core: every layer of quotes goes, not one.  A token that is white space
    only is dropped; a token of quotes only gives the empty item.  Its
    neighbours are processed independently. *)
Lemma array_items_strip_every_quote_layer
    (before after ws1 ws2 core : str) (n k l m : nat) :
  forallb isspace ws1 = true -> forallb isspace ws2 = true ->
  begins_or_ends_with space_or_quote core = false ->
  ~ In ","%char core ->
  array_items (before ++ ","%char :: item_token ws1 n k core l m ws2
                      ++ ","%char :: after)
  = array_items before
    ++ match quoted n k core l m with [] => [] | _ :: _ => [core] end
    ++ array_items after.
Proof.
  intros H1 H2 Hcore Hc.
  rewrite array_items_at_comma, array_items_at_comma.
  now rewrite array_items_of_item_token.
Qed.

(** Between the items x and y, a token with two double quotes and one
    single quote in front of its core and three double quotes behind it. *)
Lemma array_items_strip_every_quote_layer_witness :
  forallb isspace (py " ") = true /\ forallb isspace (py "  ") = true /\
  begins_or_ends_with space_or_quote (py "a b") = false /\
  ~ In ","%char (py "a b") /\
  array_items (py "x" ++ ","%char
                 :: item_token (py " ") 2 1 (py "a b") 0 3 (py "  ")
                 ++ ","%char :: py " 'y'")
  = [py "x"; py "a b"; py "y"].
Proof.
  assert (H1 : forallb isspace (py " ") = true) by reflexivity.
  assert (H2 : forallb isspace (py "  ") = true) by reflexivity.
  assert (H3 : begins_or_ends_with space_or_quote (py "a b") = false)
    by reflexivity.
  assert (H4 : ~ In ","%char (py "a b")).
  { simpl. intros [H|[H|[H|[]]]]; discriminate. }
  refine (conj H1 (conj H2 (conj H3 (conj H4 _)))).
  exact (array_items_strip_every_quote_layer (py "x") (py " 'y'") (py " ")
           (py "  ") (py "a b") 2 1 0 3 H1 H2 H3 H4).
Defined.

(** C4 (counterexample).  The token made of two double quotes, the letter
    a and two double quotes gives the bare letter, not the letter in one
    remaining layer of quotes; a double-quoted layer around a single-quoted
    one goes as well; and a token of two quotes is kept as an empty item. *)
Lemma array_items_two_layers_stripped :
  array_items ([dquote; dquote] ++ py "a" ++ [dquote; dquote]) = [py "a"] /\
  array_items ([dquote; dquote] ++ py "a" ++ [dquote; dquote])
  <> [[dquote] ++ py "a" ++ [dquote]] /\
  array_items ([dquote; squote] ++ py "a" ++ [squote; dquote]) = [py "a"] /\
  array_items (py "a, " ++ [dquote; dquote]) = [py "a"; []].
Proof.
  split; [reflexivity|]. split; [discriminate|].
  split; reflexivity.
Qed.

(** ** The inputs of the claims *)

(** A runner given on the command line wins over the runner of the file. *)
Lemma merge_keeps_truthy_values_witness :
  getitem [(py "--runner", VStr (py "tox")); (py "--ignore", VList [])]
          (py "--runner") = Some (VStr (py "tox")) /\
  truthy (VStr (py "tox")) = true /\
  getitem
    (final_args
       (merge_config lookup_body
          (env_with_ini (py "[pytest-watch]" ++ [nl] ++ py "runner = pytest"))
          [(py "--runner", VStr (py "tox")); (py "--ignore", VList [])]
          [] true false))
    (py "--runner") = Some (VStr (py "tox")).
Proof.
  assert (H1 : getitem
                 [(py "--runner", VStr (py "tox")); (py "--ignore", VList [])]
                 (py "--runner") = Some (VStr (py "tox"))) by reflexivity.
  assert (H2 : truthy (VStr (py "tox")) = true) by reflexivity.
  refine (conj H1 (conj H2 _)).
  exact (merge_keeps_truthy_values lookup_body
           (env_with_ini (py "[pytest-watch]" ++ [nl] ++ py "runner = pytest"))
           [(py "--runner", VStr (py "tox")); (py "--ignore", VList [])]
           [] true false (py "--runner") (VStr (py "tox")) H1 H2).
Defined.

(** The list of x against a section that binds the option to y and z. *)
Lemma merge_keeps_nonempty_list_witness :
  getitem [(py "--opt", VList [py "x"])] (py "--opt")
  = Some (VList [py "x"]) /\
  getitem
    (final_args
       (merge_config lookup_body (env_with_ini ini_opt_y_z)
          [(py "--opt", VList [py "x"])] [] true false))
    (py "--opt") = Some (VList [py "x"]).
Proof.
  assert (H1 : getitem [(py "--opt", VList [py "x"])] (py "--opt")
               = Some (VList [py "x"])) by reflexivity.
  refine (conj H1 _).
  exact (merge_keeps_nonempty_list lookup_body (env_with_ini ini_opt_y_z)
           [(py "--opt", VList [py "x"])] [] true false (py "--opt")
           (py "x") [] H1).
Defined.

(** C2 (counterexample).  The section binds [opt] to the lines y and z and
    the argument structure binds [--opt] to the list of x: after
    [merge_config] the list is still the list of x, not x, y, z. *)
Lemma merge_does_not_extend_nonempty_list :
  (cfg <- read (one_file ini_path ini_opt_y_z) ini_path ;;
   v <- lookup_body cfg pytest_watch (py "opt") ;;
   Ok (split nl v)) = Ok [py "y"; py "z"] /\
  merge_config lookup_body (env_with_ini ini_opt_y_z)
    [(py "--opt", VList [py "x"])] [] true false
  = Returned true [(py "--opt", VList [py "x"])] /\
  final_args
    (merge_config lookup_body (env_with_ini ini_opt_y_z)
       [(py "--opt", VList [py "x"])] [] true false)
  <> [(py "--opt", VList [py "x"; py "y"; py "z"])].
Proof.
  split; [vm_compute; reflexivity|]. split; [vm_compute; reflexivity|].
  vm_compute. discriminate.
Qed.

(** C5 (counterexample).  A located file without section header: the
    [MissingSectionHeaderError] of the reader leaves [merge_config]. *)
Lemma merge_headerless_file_raises :
  merge_config lookup_body (env_with_ini ini_headerless)
    [(py "--runner", VNone)] [] true false
  = Raised MissingSectionHeaderError [(py "--runner", VNone)].
Proof. vm_compute. reflexivity. Qed.

(** A collection error, a file the reader rejects, and a getter that
    raises. *)
Lemma merge_error_propagation_witness :
  merge_config lookup_body (simple_env None 3 (fun _ => FileOSError))
    [(py "--runner", VNone)] [] true false
  = Returned false [(py "--runner", VNone)] /\
  merge_config lookup_body (env_with_ini ini_unparsable)
    [(py "--runner", VNone)] [] false false
  = Raised ParsingError [(py "--runner", VNone)] /\
  merge_config lookup_body (env_with_ini ini_clear_maybe)
    [(py "--clear", VBool false)] [] false false
  = Raised TypeError [(py "--clear", VBool false)].
Proof.
  split; [|split].
  - apply (proj1 (merge_error_propagation lookup_body
                    (simple_env None 3 (fun _ => FileOSError))
                    [(py "--runner", VNone)] [] true false) CollectError).
    + reflexivity.
    + now right.
  - apply (proj1 (proj2 (merge_error_propagation lookup_body
                           (env_with_ini ini_unparsable)
                           [(py "--runner", VNone)] [] false false))
                 ini_path).
    + reflexivity.
    + discriminate.
    + vm_compute. reflexivity.
  - apply (proj2 (proj2 (merge_error_propagation lookup_body
                           (env_with_ini ini_clear_maybe)
                           [(py "--clear", VBool false)] [] false false))
                 ini_path
                 (Config [(pytest_watch, [(py "clear", py "maybe")])] [])).
    + reflexivity.
    + discriminate.
    + vm_compute. reflexivity.
    + reflexivity.
    + reflexivity.
Defined.



(** C1 (the code at the inputs of the claim).  The bracketed value is
    rewritten with the characters backslash and n between the items, so the
    reader stores one line; [get] raises [TypeError] for the bracketed and
    for the native spelling alike; and merging the file of the scenario
    into an empty [--ignore] raises [TypeError] and leaves the list
    empty. *)
Theorem bracketed_array_is_not_read_as_sequence
    (body : config -> str -> str -> result str) (pytest_args : list str)
    (silent verbose : bool) :
  normalize ini_bracketed_abc
  = py "[pytest-watch]" ++ [nl] ++ py "opt = a\nb\nc" /\
  (cfg <- read (one_file ini_path ini_bracketed_abc) ini_path ;;
   lookup_body cfg pytest_watch (py "opt")) = Ok (py "a\nb\nc") /\
  (cfg <- read (one_file ini_path ini_continuation_abc) ini_path ;;
   lookup_body cfg pytest_watch (py "opt"))
  = Ok (py "a" ++ [nl] ++ py "b" ++ [nl] ++ py "c") /\
  (cfg <- read (one_file ini_path ini_bracketed_abc) ini_path ;;
   get body cfg pytest_watch (py "opt") (PBool false) PNone PNone)
  = Raise TypeError /\
  (cfg <- read (one_file ini_path ini_continuation_abc) ini_path ;;
   get body cfg pytest_watch (py "opt") (PBool false) PNone PNone)
  = Raise TypeError /\
  merge_config body (env_with_ini ini_bracketed_ignore)
    [(py "--ignore", VList [])] pytest_args silent verbose
  = Raised TypeError [(py "--ignore", VList [])].
Proof.
  split; [vm_compute; reflexivity|]. split; [vm_compute; reflexivity|].
  split; [vm_compute; reflexivity|]. split; [reflexivity|].
  split; [reflexivity|].
  destruct silent; vm_compute; reflexivity.
Qed.

(** ** The regular expression engine and [array_pattern] *)

Lemma star_greedy_splits (p : ascii -> bool) (s : str) (bol : bool)
    (m : matched) :
  In m (star_greedy p bol s) -> s = consumed m ++ remaining m.
Proof.
  revert bol m. induction s as [|c s IH]; intros bol m; simpl.
  - intros [<-|[]]. reflexivity.
  - destruct (p c).
    + intros H. apply in_app_or in H as [H|[<-|[]]]; [|reflexivity].
      apply in_map_iff in H as (m' & <- & Hm'). simpl.
      f_equal. now apply IH with (Ascii.eqb c nl).
    + intros [<-|[]]. reflexivity.
Qed.

Lemma star_lazy_splits (p : ascii -> bool) (s : str) (bol : bool)
    (m : matched) :
  In m (star_lazy p bol s) -> s = consumed m ++ remaining m.
Proof.
  revert bol m. induction s as [|c s IH]; intros bol m; simpl.
  - intros [<-|[]]. reflexivity.
  - intros [<-|H]; [reflexivity|].
    destruct (p c); [|contradiction].
    apply in_map_iff in H as (m' & <- & Hm'). simpl.
    f_equal. now apply IH with (Ascii.eqb c nl).
Qed.

(** Every way to match splits the text into what is consumed and what is
    left. *)
Lemma run_splits (r : regex) (s : str) (bol : bool) (m : matched) :
  In m (run r bol s) -> s = consumed m ++ remaining m.
Proof.
  revert s bol m. induction r as [| |p|g p|a IHa b IHb|name r IH];
    intros s bol m; simpl.
  - destruct bol; [intros [<-|[]]; reflexivity|contradiction].
  - destruct s as [|c [|c' s]]; try contradiction.
    + intros [<-|[]]. reflexivity.
    + destruct (Ascii.eqb c nl); [intros [<-|[]]; reflexivity|contradiction].
  - destruct s as [|c s]; [contradiction|].
    destruct (p c); [intros [<-|[]]; reflexivity|contradiction].
  - destruct g; [apply star_greedy_splits|apply star_lazy_splits].
  - intros H. apply in_flat_map in H as (m1 & H1 & H2).
    apply in_map_iff in H2 as (m2 & <- & H2).
    apply IHa in H1. apply IHb in H2. simpl.
    rewrite <- app_assoc, <- H2. exact H1.
  - intros H. apply in_map_iff in H as (m' & <- & Hm'). simpl.
    now apply IH with bol.
Qed.

(** A match of a pattern that ends in a one-character class ends in a
    character of the class. *)
Lemma run_ends_with_class (r : regex) (p : ascii -> bool) (s : str)
    (bol : bool) (m : matched) :
  In m (run (Cat r (Cls p)) bol s) ->
  exists w c, consumed m = w ++ [c] /\ p c = true.
Proof.
  simpl. intros H. apply in_flat_map in H as (m1 & H1 & H2).
  apply in_map_iff in H2 as (m2 & <- & H2). simpl in H2.
  destruct (remaining m1) as [|c s']; [contradiction|].
  destruct (p c) eqn:E; [|contradiction].
  destruct H2 as [<-|[]]. simpl. now exists (consumed m1), c.
Qed.

Lemma cat_assoc_run (a b c : regex) (s : str) (bol : bool) (m : matched) :
  In m (run (Cat a (Cat b c)) bol s) ->
  exists m', In m' (run (Cat (Cat a b) c) bol s) /\ consumed m' = consumed m.
Proof.
  simpl. intros H. apply in_flat_map in H as (m1 & H1 & H2).
  apply in_map_iff in H2 as (m23 & <- & H2).
  apply in_flat_map in H2 as (m2 & H2 & H3).
  apply in_map_iff in H3 as (m3 & <- & H3).
  exists (then_ (then_ m1 m2) m3). split.
  - apply in_flat_map. exists (then_ m1 m2). split.
    + apply in_flat_map. exists m1. split; [assumption|].
      apply in_map. assumption.
    + apply in_map. assumption.
  - simpl. now rewrite app_assoc.
Qed.

(** Every match of [array_pattern] ends in a closing bracket; in
    particular it is not empty, as [sub] assumes. *)
Lemma array_pattern_match_ends_with_bracket (s : str) (bol : bool)
    (m : matched) :
  In m (run array_pattern bol s) ->
  exists w, consumed m = w ++ ["]"%char].
Proof.
  unfold array_pattern. intros H.
  apply cat_assoc_run in H as (m1 & H & <-).
  apply cat_assoc_run in H as (m2 & H & <-).
  apply cat_assoc_run in H as (m3 & H & <-).
  apply run_ends_with_class in H as (w & c & -> & Hc).
  apply Ascii.eqb_eq in Hc. subst c. now exists w.
Qed.

Lemma array_pattern_match_not_empty (s : str) (bol : bool) (m : matched) :
  match_here array_pattern bol s = Some m -> consumed m <> [].
Proof.
  unfold match_here. intros H.
  assert (Hin : In m (run array_pattern bol s)).
  { destruct (run array_pattern bol s); [discriminate|].
    injection H as <-. now left. }
  apply array_pattern_match_ends_with_bracket in Hin as (w & ->).
  now destruct w.
Qed.

Lemma match_here_in_run (r : regex) (s : str) (bol : bool) (m : matched) :
  match_here r bol s = Some m -> In m (run r bol s).
Proof.
  unfold match_here. destruct (run r bol s); [discriminate|].
  intros [= <-]. now left.
Qed.

Lemma sub_from_skip (r : regex) (repl : matched -> str) (w rest : str)
    (bol : bool) :
  sub_from r repl (List.length w) bol (w ++ rest)
  = sub_from r repl 0 (bol_after bol w) rest.
Proof.
  revert bol. induction w as [|c w IH]; intros bol; simpl.
  - reflexivity.
  - apply IH.
Qed.

(** [sub] at a position where the pattern matches: the replacement, then
    the substitution of what the match leaves. *)
Lemma sub_from_at_match (r : regex) (repl : matched -> str) (s : str)
    (bol : bool) (m : matched) :
  match_here r bol s = Some m -> consumed m <> [] ->
  sub_from r repl 0 bol s
  = repl m ++ sub_from r repl 0 (bol_after bol (consumed m)) (remaining m).
Proof.
  intros Hm Hne.
  pose proof (run_splits _ _ _ _ (match_here_in_run _ _ _ _ Hm)) as Hs.
  destruct (consumed m) as [|c w] eqn:Hc; [contradiction|].
  subst s. cbn [app sub_from]. cbn [app] in Hm. rewrite Hm, Hc.
  cbn [List.length]. f_equal.
  exact (sub_from_skip r repl w (remaining m) (Ascii.eqb c nl)).
Qed.

(** The normalisation at a match of [array_pattern]: the key, the joined
    items, and the normalisation of the text after the closing bracket. *)
Lemma normalize_at_match (s : str) (bol : bool) (m : matched) :
  match_here array_pattern bol s = Some m ->
  sub_from array_pattern _replace_array 0 bol s
  = _replace_array m
    ++ sub_from array_pattern _replace_array 0 false (remaining m).
Proof.
  intros Hm.
  rewrite (sub_from_at_match _ _ _ _ _ Hm
             (array_pattern_match_not_empty _ _ _ Hm)).
  apply match_here_in_run in Hm.
  apply array_pattern_match_ends_with_bracket in Hm as (w & ->).
  unfold bol_after. now rewrite fold_left_app.
Qed.

Lemma array_pattern_needs_bracket (s : str) (bol : bool) :
  ~ In "]"%char s -> match_here array_pattern bol s = None.
Proof.
  intros Hs. unfold match_here.
  destruct (run array_pattern bol s) as [|m ms] eqn:E; [reflexivity|].
  exfalso. apply Hs.
  assert (Hin : In m (run array_pattern bol s)) by (rewrite E; now left).
  pose proof (run_splits _ _ _ _ Hin) as Hsplit.
  apply array_pattern_match_ends_with_bracket in Hin as (w & Hw).
  rewrite Hsplit, Hw. apply in_or_app. left. apply in_or_app. right.
  now left.
Qed.

Lemma search_needs_bracket (s : str) (start : nat) (bol : bool) :
  ~ In "]"%char s -> search_from array_pattern start bol s = None.
Proof.
  revert start bol. induction s as [|c s IH]; intros start bol Hs;
    cbn [search_from]; rewrite array_pattern_needs_bracket by assumption.
  - reflexivity.
  - apply IH. intros Hin. apply Hs. now right.
Qed.

(** Content without closing bracket is already normalised. *)
Lemma normalize_without_bracket (content : str) :
  ~ In "]"%char content -> normalize content = content.
Proof.
  intros H. unfold normalize, sub.
  apply sub_from_no_match with 0. now apply search_needs_bracket.
Qed.

(** Normalising twice is not normalising once: the output of the
    normalisation can hold a bracketed value again. *)
Lemma normalize_nested_brackets :
  normalize (py "k = [[a]]") = py "k = [a]" /\
  normalize (py "k = [a]") = py "k = a".
Proof. split; vm_compute; reflexivity. Qed.

(** Items joined by a line feed and no indentation, which is what the
    comment in [read] announces, would not be continuation lines: the reader
    rejects them. *)
Lemma unindented_items_are_rejected :
  _read (py "[pytest-watch]" ++ [nl] ++ py "opt = a" ++ [nl] ++ py "b"
         ++ [nl] ++ py "c") = Raise ParsingError.
Proof. vm_compute. reflexivity. Qed.

(** With an interrupted silenced attempt and a retry that finds no ini
    file, [merge_config] goes on and returns [True]: what counts is the
    attempt made last. *)
Lemma merge_interrupted_then_retried :
  merge_config lookup_body
    (Env 0 2 5
       (fun call _ => PytestRun (Some None)
                        (Exit (match call with O => 2 | _ => 0 end)%Z))
       (fun _ => FileOSError))
    [(py "--ignore", VList [])] [] true false
  = Returned true [(py "--ignore", VList [])].
Proof. reflexivity. Qed.

(* ================================================================== *)
(** * Further properties *)
(* ================================================================== *)

(** ** The config locator *)

(** [_run_pytest_collect] returns a path exactly when the runner called the
    hook with a resolved ini file; the path is that file, and it is never
    the empty string.  How the run would have ended plays no role. *)
Theorem run_pytest_collect_returns_resolved_inifile
    (E : env) (call : nat) (pytest_args : list str) (path : str) :
  _run_pytest_collect E call pytest_args = Ok (Some path) <->
  path <> [] /\
  hook_inifile (pytest_main E call (collect_argv pytest_args))
  = Some (Some path).
Proof.
  unfold _run_pytest_collect, main_with_plugin, collect_argv.
  destruct (hook_inifile (pytest_main E call _)) as [[[|c p]|]|]; simpl.
  - split.
    + destruct (finish_of _) as [code|e].
      * destruct (code =? EXIT_INTERRUPTED E)%Z; [discriminate|].
        destruct (negb _); discriminate.
      * destruct e; discriminate.
    + intros [Hne H]. injection H as <-. contradiction.
  - split.
    + intros [= <-]. split; [discriminate|reflexivity].
    + intros [_ [= <-]]. reflexivity.
  - split.
    + destruct (finish_of _) as [code|e].
      * destruct (code =? EXIT_INTERRUPTED E)%Z; [discriminate|].
        destruct (negb _); discriminate.
      * destruct e; discriminate.
    + intros [_ H]. discriminate.
  - split.
    + destruct (finish_of _) as [code|e].
      * destruct (code =? EXIT_INTERRUPTED E)%Z; [discriminate|].
        destruct (negb _); discriminate.
      * destruct e; discriminate.
    + intros [_ H]. discriminate.
Qed.

(** With output silenced, an exception of a class the silenced attempt
    catches leaves [_collect_config] only if the retry raised it. *)
Lemma collect_config_silent_failure (E : env) (pytest_args : list str)
    (e : exn) :
  _collect_config E pytest_args true = Raise e ->
  caught_when_silent e = true ->
  _run_pytest_collect E 1 pytest_args = Raise e.
Proof.
  unfold _collect_config.
  destruct (_run_pytest_collect E 0 pytest_args) as [p|e0]; [discriminate|].
  destruct (caught_when_silent e0) eqn:E0; [tauto|].
  intros [= ->] H. congruence.
Qed.

(** When the runner behaves on the retry as on the first attempt, silencing
    changes nothing in what discovery gives. *)
Lemma collect_config_silent_irrelevant (E : env) (pytest_args : list str) :
  pytest_main E 1 (collect_argv pytest_args)
  = pytest_main E 0 (collect_argv pytest_args) ->
  _collect_config E pytest_args true = _collect_config E pytest_args false.
Proof.
  intros H. unfold _collect_config.
  assert (H1 : _run_pytest_collect E 1 pytest_args
               = _run_pytest_collect E 0 pytest_args).
  { unfold _run_pytest_collect. fold (collect_argv pytest_args).
    now rewrite H. }
  destruct (_run_pytest_collect E 0 pytest_args) as [p|e] eqn:E0;
    [reflexivity|].
  destruct (caught_when_silent e); [exact H1|reflexivity].
Qed.

(** For a runner that behaves on the retry as on the first attempt, the
    outcome of [merge_config] does not depend on [silent] (nor on
    [verbose]): the two flags only steer what is printed. *)
Theorem merge_config_flags_irrelevant
    (body : config -> str -> str -> result str) (E : env)
    (args : dict value) (pytest_args : list str)
    (silent silent' verbose verbose' : bool) :
  pytest_main E 1 (collect_argv pytest_args)
  = pytest_main E 0 (collect_argv pytest_args) ->
  merge_config body E args pytest_args silent verbose
  = merge_config body E args pytest_args silent' verbose'.
Proof.
  intros H. unfold merge_config.
  assert (Hc : _collect_config E pytest_args silent
               = _collect_config E pytest_args silent').
  { pose proof (collect_config_silent_irrelevant E pytest_args H).
    destruct silent, silent'; congruence. }
  now rewrite Hc.
Qed.

(** A runner that resolves the same ini file on every call. *)
Lemma merge_config_flags_irrelevant_witness :
  pytest_main (simple_env (Some ini_path) 0 (one_file ini_path ini_opt_y_z))
              1 (collect_argv [py "tests"])
  = pytest_main (simple_env (Some ini_path) 0 (one_file ini_path ini_opt_y_z))
                0 (collect_argv [py "tests"]) /\
  merge_config lookup_body
    (simple_env (Some ini_path) 0 (one_file ini_path ini_opt_y_z))
    [(py "--opt", VList [])] [py "tests"] true false
  = merge_config lookup_body
      (simple_env (Some ini_path) 0 (one_file ini_path ini_opt_y_z))
      [(py "--opt", VList [])] [py "tests"] false true.
Proof.
  refine (conj eq_refl _).
  exact (merge_config_flags_irrelevant lookup_body
           (simple_env (Some ini_path) 0 (one_file ini_path ini_opt_y_z))
           [(py "--opt", VList [])] [py "tests"] true false false true
           eq_refl).
Defined.

(** ** [merge_config] with the parser of the module *)

Section ConcreteMerger.
Variable body : config -> str -> str -> result str.
Variable cfg : config.

Let step :=
  merge_option (has_option cfg pytest_watch)
    (fun name => get body cfg pytest_watch name (PBool false) PNone PNone)
    (getboolean body cfg pytest_watch).
Let loop :=
  merge_loop (has_option cfg pytest_watch)
    (fun name => get body cfg pytest_watch name (PBool false) PNone PNone)
    (getboolean body cfg pytest_watch).

(** One pass of the loop body: nothing to fetch and nothing changes, or the
    getter is called and raises. *)
Lemma merge_option_with_parser (args : dict value) (cli_name : str) :
  In cli_name (keys args) ->
  step args cli_name
  = if option_to_merge cfg args cli_name then Raise TypeError else Ok args.
Proof.
  intros Hin. unfold step, merge_option, option_to_merge.
  destruct (startswith CLI_OPTION_PREFIX cli_name); cbn [negb andb];
    [|reflexivity].
  destruct (getitem args cli_name) as [v|] eqn:Hg.
  - destruct (truthy v) eqn:Ht; cbn [negb andb]; [reflexivity|].
    destruct (has_option cfg pytest_watch
                (skipn (List.length CLI_OPTION_PREFIX) cli_name));
      cbn [negb]; [|reflexivity].
    now destruct v.
  - exfalso. clear step loop. unfold keys in Hin.
    induction args as [|[k v] args IH]; simpl in *; [contradiction|].
    destruct (str_eqb cli_name k) eqn:E; [discriminate|].
    destruct Hin as [->|Hin]; [|now apply IH].
    now rewrite str_eqb_refl in E.
Qed.

Lemma merge_loop_with_parser (names : list str) (args : dict value) :
  incl names (keys args) ->
  loop names args
  = (args, if existsb (option_to_merge cfg args) names
           then Some TypeError else None).
Proof.
  induction names as [|n names IH]; intros Hincl; simpl.
  - reflexivity.
  - fold step. rewrite merge_option_with_parser by (apply Hincl; now left).
    destruct (option_to_merge cfg args n); simpl; [reflexivity|].
    fold loop. apply IH. intros x Hx. apply Hincl. now right.
Qed.

End ConcreteMerger.

(** [MultiLineConfigParser.get] and the inherited [getboolean] raise
    [TypeError] on every call: whatever the parser holds, whatever section
    and option are asked for, and whatever [raw], [vars] and [fallback]
    are. *)
Theorem parser_getters_raise_TypeError
    (body : config -> str -> str -> result str) (cfg : config)
    (section option : str) (raw vars fallback : pyobj) :
  get body cfg section option raw vars fallback = Raise TypeError /\
  getboolean body cfg section option = Raise TypeError.
Proof. split; reflexivity. Qed.

(** Where [merge_config] can return [False]. *)
Lemma merge_returns_false_inv
    (body : config -> str -> str -> result str) (E : env)
    (args args' : dict value) (pytest_args : list str)
    (silent verbose : bool) :
  merge_config body E args pytest_args silent verbose = Returned false args'
  ->
  args' = args /\
  (_collect_config E pytest_args silent = Raise KeyboardInterrupt \/
   _collect_config E pytest_args silent = Raise CollectError).
Proof.
  unfold merge_config.
  destruct (_collect_config E pytest_args silent) as [[[|c p]|]|e];
    try discriminate.
  - unfold merge_from.
    destruct (read (open_file E) (c :: p)) as [cfg|e]; [|discriminate].
    destruct (has_section cfg pytest_watch); simpl; [|discriminate].
    destruct (merge_loop _ _ _ _ _) as [a [e|]]; discriminate.
  - destruct e; try discriminate; intros [= <-]; split; auto.
Qed.

(** [merge_config] returns [False] exactly when a [KeyboardInterrupt] or a
    [CollectError] leaves the discovery, and then the argument structure is
    the one it was given. *)
Theorem merge_returns_false_iff
    (body : config -> str -> str -> result str) (E : env)
    (args args' : dict value) (pytest_args : list str)
    (silent verbose : bool) :
  merge_config body E args pytest_args silent verbose = Returned false args'
  <->
  args' = args /\
  (_collect_config E pytest_args silent = Raise KeyboardInterrupt \/
   _collect_config E pytest_args silent = Raise CollectError).
Proof.
  split; [apply merge_returns_false_inv|].
  intros [-> [H|H]]; unfold merge_config; now rewrite H.
Qed.

(** With output silenced, [merge_config] returns [False] only when the
    unsilenced retry was itself interrupted or failed to collect: a failure
    of the silenced attempt alone never gives [False]. *)
Theorem merge_silent_false_comes_from_retry
    (body : config -> str -> str -> result str) (E : env)
    (args args' : dict value) (pytest_args : list str) (verbose : bool) :
  merge_config body E args pytest_args true verbose = Returned false args' ->
  _run_pytest_collect E 1 pytest_args = Raise KeyboardInterrupt \/
  _run_pytest_collect E 1 pytest_args = Raise CollectError.
Proof.
  intros H. apply merge_returns_false_inv in H as [_ [H|H]].
  - left. now apply collect_config_silent_failure.
  - right. now apply collect_config_silent_failure.
Qed.

(** The first attempt ends with a usage error, the retry is interrupted. *)
Lemma merge_silent_false_comes_from_retry_witness :
  merge_config lookup_body
    (Env 0 2 5
       (fun call _ => PytestRun None
                        (Exit (match call with O => 4 | _ => 2 end)%Z))
       (fun _ => FileOSError))
    [(py "--ignore", VList [])] [] true false
  = Returned false [(py "--ignore", VList [])] /\
  (_run_pytest_collect
     (Env 0 2 5
        (fun call _ => PytestRun None
                         (Exit (match call with O => 4 | _ => 2 end)%Z))
        (fun _ => FileOSError)) 1 [] = Raise KeyboardInterrupt \/
   _run_pytest_collect
     (Env 0 2 5
        (fun call _ => PytestRun None
                         (Exit (match call with O => 4 | _ => 2 end)%Z))
        (fun _ => FileOSError)) 1 [] = Raise CollectError).
Proof.
  refine (conj eq_refl _).
  exact (merge_silent_false_comes_from_retry lookup_body
           (Env 0 2 5
              (fun call _ => PytestRun None
                               (Exit (match call with O => 4 | _ => 2 end)%Z))
              (fun _ => FileOSError))
           [(py "--ignore", VList [])] [(py "--ignore", VList [])] [] false
           eq_refl).
Defined.

(** What [merge_config] does once a non-empty path is discovered and the
    file at it is read. *)
Lemma merge_from_with_parser
    (body : config -> str -> str -> result str)
    (opener : str -> file) (args : dict value) (path : str)
    (cfg : config) :
  read opener path = Ok cfg ->
  merge_from body opener args path
  = if has_section cfg pytest_watch
       && existsb (option_to_merge cfg args) (keys args)
    then Raised TypeError args else Returned true args.
Proof.
  intros Hr. unfold merge_from. rewrite Hr.
  destruct (has_section cfg pytest_watch); cbn [negb andb]; [|reflexivity].
  rewrite merge_loop_with_parser by apply incl_refl.
  now destruct (existsb _ _).
Qed.

(** [merge_config] never changes the argument structure: whatever the
    runner, the file and the arguments are, and whether the call returns or
    raises, the structure at the end is the one that was passed in. *)
Theorem merge_config_never_changes_args
    (body : config -> str -> str -> result str) (E : env)
    (args : dict value) (pytest_args : list str) (silent verbose : bool) :
  final_args (merge_config body E args pytest_args silent verbose) = args.
Proof.
  unfold merge_config.
  destruct (_collect_config E pytest_args silent) as [[[|c p]|]|e];
    try reflexivity.
  - destruct (read (open_file E) (c :: p)) as [cfg|e] eqn:Hr.
    + rewrite (merge_from_with_parser body _ args _ cfg Hr).
      now destruct (_ && _).
    + unfold merge_from. now rewrite Hr.
  - now destruct e.
Qed.

(** Once the located file is read and holds the section [pytest-watch],
    [merge_config] raises [TypeError] if some prefixed option with a falsy
    value is defined in the section, and returns [True] otherwise: merging
    succeeds exactly when there is nothing to merge. *)
Theorem merge_config_outcome_with_section
    (body : config -> str -> str -> result str) (E : env)
    (args : dict value) (pytest_args : list str) (silent verbose : bool)
    (path : str) (cfg : config) :
  _collect_config E pytest_args silent = Ok (Some path) ->
  path <> [] ->
  read (open_file E) path = Ok cfg ->
  has_section cfg pytest_watch = true ->
  merge_config body E args pytest_args silent verbose
  = if existsb (option_to_merge cfg args) (keys args)
    then Raised TypeError args else Returned true args.
Proof.
  intros Hc Hp Hr Hs. unfold merge_config. rewrite Hc.
  destruct path as [|c p]; [contradiction|].
  rewrite (merge_from_with_parser body _ args _ cfg Hr). now rewrite Hs.
Qed.

(** The section defines [runner] and [nobeep]; the first is set on the
    command line, the second is a flag that is off. *)
Lemma merge_config_outcome_with_section_witness :
  _collect_config
    (env_with_ini (py "[pytest-watch]" ++ [nl] ++ py "runner = tox" ++ [nl]
                   ++ py "nobeep = yes")) [] true = Ok (Some ini_path) /\
  ini_path <> [] /\
  read (open_file
          (env_with_ini (py "[pytest-watch]" ++ [nl] ++ py "runner = tox"
                         ++ [nl] ++ py "nobeep = yes"))) ini_path
  = Ok (Config [(pytest_watch, [(py "runner", py "tox");
                                (py "nobeep", py "yes")])] []) /\
  merge_config lookup_body
    (env_with_ini (py "[pytest-watch]" ++ [nl] ++ py "runner = tox" ++ [nl]
                   ++ py "nobeep = yes"))
    [(py "--runner", VStr (py "pytest")); (py "--nobeep", VBool false)]
    [] true false
  = Raised TypeError
      [(py "--runner", VStr (py "pytest")); (py "--nobeep", VBool false)].
Proof.
  assert (Hr : read (open_file
          (env_with_ini (py "[pytest-watch]" ++ [nl] ++ py "runner = tox"
                         ++ [nl] ++ py "nobeep = yes"))) ini_path
  = Ok (Config [(pytest_watch, [(py "runner", py "tox");
                                (py "nobeep", py "yes")])] []))
    by (vm_compute; reflexivity).
  assert (Hp : ini_path <> []) by discriminate.
  refine (conj eq_refl (conj Hp (conj Hr _))).
  exact (merge_config_outcome_with_section lookup_body
           (env_with_ini (py "[pytest-watch]" ++ [nl] ++ py "runner = tox"
                          ++ [nl] ++ py "nobeep = yes"))
           [(py "--runner", VStr (py "pytest")); (py "--nobeep", VBool false)]
           [] true false ini_path _ eq_refl Hp Hr eq_refl).
Defined.

(** A discovered config file that cannot be opened is no error: the read
    falls back to the inherited one, which skips the file, and
    [merge_config] returns [True] with the argument structure unchanged. *)
Theorem merge_config_unopenable_file
    (body : config -> str -> str -> result str) (E : env)
    (args : dict value) (pytest_args : list str) (silent verbose : bool)
    (path : str) :
  _collect_config E pytest_args silent = Ok (Some path) ->
  open_file E path = FileOSError ->
  merge_config body E args pytest_args silent verbose = Returned true args.
Proof.
  intros Hc Ho. unfold merge_config. rewrite Hc.
  destruct path as [|c p]; [reflexivity|].
  unfold merge_from, read, RawConfigParser_read. now rewrite Ho.
Qed.

(** The runner resolves an ini file that the file system does not hold. *)
Lemma merge_config_unopenable_file_witness :
  _collect_config (simple_env (Some ini_path) 0 (fun _ => FileOSError)) []
    false
  = Ok (Some ini_path) /\
  open_file (simple_env (Some ini_path) 0 (fun _ => FileOSError)) ini_path
  = FileOSError /\
  merge_config lookup_body
    (simple_env (Some ini_path) 0 (fun _ => FileOSError))
    [(py "--ignore", VList [])] [] false false
  = Returned true [(py "--ignore", VList [])].
Proof.
  refine (conj eq_refl (conj eq_refl _)).
  exact (merge_config_unopenable_file lookup_body
           (simple_env (Some ini_path) 0 (fun _ => FileOSError))
           [(py "--ignore", VList [])] [] false false ini_path
           eq_refl eq_refl).
Defined.

(** On a file without bracketed value, on a file that cannot be opened and
    on a file whose reading fails with an [Exception],
    [MultiLineConfigParser.read] gives what the inherited [read] gives. *)
Theorem read_agrees_with_inherited_read
    (opener : str -> file) (filename : str) :
  (forall content,
     opener filename = FileText content ->
     search array_pattern content = None) ->
  (forall e seen,
     opener filename = FileFails e seen -> is_Exception e = true) ->
  read opener filename = RawConfigParser_read opener filename.
Proof.
  intros H He. unfold read, RawConfigParser_read.
  destruct (opener filename) as [content| |e seen] eqn:Ho.
  - unfold read_string, normalize, sub.
    now rewrite (sub_from_no_match _ _ _ 0 true (H content eq_refl)).
  - reflexivity.
  - now rewrite (He e seen eq_refl).
Qed.

(** The file that spells its list with continuation lines. *)
Lemma read_agrees_with_inherited_read_witness :
  (forall content,
     one_file ini_path ini_continuation_abc ini_path = FileText content ->
     search array_pattern content = None) /\
  (forall e seen,
     one_file ini_path ini_continuation_abc ini_path = FileFails e seen ->
     is_Exception e = true) /\
  read (one_file ini_path ini_continuation_abc) ini_path
  = RawConfigParser_read (one_file ini_path ini_continuation_abc) ini_path.
Proof.
  assert (H : forall content,
     one_file ini_path ini_continuation_abc ini_path = FileText content ->
     search array_pattern content = None).
  { intros content Hc. vm_compute in Hc. injection Hc as <-.
    vm_compute. reflexivity. }
  assert (He : forall e seen,
     one_file ini_path ini_continuation_abc ini_path = FileFails e seen ->
     is_Exception e = true).
  { intros e seen Hc. vm_compute in Hc. discriminate Hc. }
  refine (conj H (conj He _)).
  exact (read_agrees_with_inherited_read
           (one_file ini_path ini_continuation_abc) ini_path H He).
Defined.

(** ** The loop of the merger as a pass over the entries, for any parser *)

Section DictMoreFacts.
Context {V : Type}.
Implicit Types (d : dict V) (k : str) (v : V).

Lemma setitem_current d k v : getitem d k = Some v -> setitem d k v = d.
Proof.
  induction d as [|[k' v'] d IH]; simpl; [discriminate|].
  destruct (str_eqb k k') eqn:E.
  - now intros [= ->].
  - intros H. now rewrite IH.
Qed.

Lemma getitem_fresh d d' k :
  ~ In k (keys d) -> getitem (d ++ d') k = getitem d' k.
Proof.
  unfold keys. induction d as [|[k' v'] d IH]; simpl; [reflexivity|].
  intros H. destruct (str_eqb k k') eqn:E.
  - apply str_eqb_eq in E. subst. exfalso. apply H. now left.
  - apply IH. intros Hin. apply H. now right.
Qed.

Lemma setitem_fresh d d' k v :
  ~ In k (keys d) -> setitem (d ++ d') k v = d ++ setitem d' k v.
Proof.
  unfold keys. induction d as [|[k' v'] d IH]; simpl; [reflexivity|].
  intros H. destruct (str_eqb k k') eqn:E.
  - apply str_eqb_eq in E. subst. exfalso. apply H. now left.
  - f_equal. apply IH. intros Hin. apply H. now right.
Qed.

Lemma in_keys_getitem d k : In k (keys d) -> exists v, getitem d k = Some v.
Proof.
  unfold keys. induction d as [|[k' v'] d IH]; simpl; [contradiction|].
  intros H. destruct (str_eqb k k') eqn:E; [now exists v'|].
  destruct H as [->|H]; [|now apply IH].
  now rewrite str_eqb_refl in E.
Qed.

End DictMoreFacts.

Section LoopAsPass.
Variable config_has_option : str -> bool.
Variable config_get : str -> result getval.
Variable config_getboolean : str -> result bool.

Let step := merge_option config_has_option config_get config_getboolean.
Let loop := merge_loop config_has_option config_get config_getboolean.
Let merged :=
  merged_value config_has_option config_get config_getboolean.
Let pass := merge_entries config_has_option config_get config_getboolean.

(** The loop body rebinds [cli_name] to the merged value of its current
    value. *)
Lemma merge_option_as_merged_value (args : dict value) (cli_name : str)
    (current : value) :
  getitem args cli_name = Some current ->
  step args cli_name
  = (new <- merged cli_name current ;; Ok (setitem args cli_name new)).
Proof.
  intros Hg. unfold step, merge_option, merged, merged_value.
  pose proof (setitem_current args cli_name current Hg) as Hs.
  destruct (startswith CLI_OPTION_PREFIX cli_name); cbn [negb bind];
    [|now rewrite Hs].
  rewrite Hg.
  destruct (truthy current); cbn [bind]; [now rewrite Hs|].
  destruct (config_has_option _); cbn [negb bind]; [|now rewrite Hs].
  destruct current as [|b|n|s|l];
    try (destruct (config_get _) as [[s'|l']|e]; reflexivity).
  destruct (config_getboolean _); reflexivity.
Qed.

Lemma merge_loop_as_pass_from (done todo : dict value) :
  NoDup (keys (done ++ todo)) ->
  loop (keys todo) (done ++ todo)
  = (done ++ fst (pass todo), snd (pass todo)).
Proof.
  revert done. induction todo as [|[k v] todo IH]; intros done Hnd.
  - reflexivity.
  - assert (Hfresh : ~ In k (keys done)).
    { unfold keys in *. rewrite map_app in Hnd. simpl in Hnd.
      apply NoDup_remove_2 in Hnd. intros Hin. apply Hnd.
      apply in_or_app. now left. }
    cbn [keys map fst loop merge_loop]. fold step.
    rewrite (merge_option_as_merged_value _ _ v).
    2:{ rewrite getitem_fresh by assumption. simpl.
        now rewrite str_eqb_refl. }
    cbn [pass merge_entries]. fold merged.
    destruct (merged k v) as [new|e]; cbn [bind]; [|reflexivity].
    rewrite setitem_fresh by assumption. cbn [setitem].
    rewrite str_eqb_refl.
    change (done ++ (k, new) :: todo) with (done ++ [(k, new)] ++ todo).
    rewrite app_assoc. fold loop. fold (keys todo). rewrite IH.
    + fold pass. destruct (pass todo) as [rest' e']. cbn [fst snd].
      now rewrite <- app_assoc.
    + unfold keys in *. rewrite <- app_assoc.
      rewrite !map_app in *. exact Hnd.
Qed.

Lemma merge_loop_as_pass (args : dict value) :
  NoDup (keys args) -> loop (keys args) args = pass args.
Proof.
  intros Hnd.
  pose proof (merge_loop_as_pass_from [] args Hnd) as H. cbn [app] in H.
  rewrite H. now destruct (pass args).
Qed.

(** Over an argument structure (no key twice), the in-place loop is one
    pass from left to right that rewrites each entry on its own and stops
    at the first exception: entries before it are merged, the others are
    untouched. *)
Theorem merge_loop_is_pass_over_entries (args : dict value) :
  NoDup (keys args) ->
  loop (keys args) args = pass args.
Proof. exact (merge_loop_as_pass args). Qed.

(** What the merged value of a merged value is. *)
Lemma merged_value_idempotent (cli_name : str) (current new : value) :
  merged cli_name current = Ok new -> merged cli_name new = Ok new.
Proof.
  unfold merged, merged_value.
  destruct (startswith CLI_OPTION_PREFIX cli_name); cbn [negb];
    [|now intros [= ->]].
  destruct (truthy current) eqn:Ht; [intros [= <-]; now rewrite Ht|].
  destruct (config_has_option _) eqn:Hh; cbn [negb];
    [|intros [= <-]; now rewrite Ht].
  remember (skipn (List.length CLI_OPTION_PREFIX) cli_name) as name eqn:Hn.
  clear Hn.
  assert (Hget : forall g,
            config_get name = Ok g ->
            (if truthy (of_getval g) then Ok (of_getval g)
             else match of_getval g with
                  | VList l =>
                      v <- config_get name ;;
                      match v with
                      | GList items => Ok (VList (l ++ items))
                      | GStr item => Ok (VList (l ++ [item]))
                      end
                  | VBool _ => b <- config_getboolean name ;; Ok (VBool b)
                  | _ => v <- config_get name ;; Ok (of_getval v)
                  end) = Ok (of_getval g)).
  { intros [[|c s]|[|x l]] Hg; cbn [of_getval truthy]; try reflexivity;
      now rewrite Hg. }
  destruct current as [|b|n|s|l]; cbn [truthy] in Ht.
  - destruct (config_get name) as [g|e] eqn:Hg; [|discriminate].
    cbn [bind]. intros [= <-]. now apply Hget.
  - destruct (config_getboolean name) as [[|]|e] eqn:Hb; cbn [bind];
      try discriminate; intros [= <-]; reflexivity.
  - destruct (config_get name) as [g|e] eqn:Hg; [|discriminate].
    cbn [bind]. intros [= <-]. now apply Hget.
  - destruct (config_get name) as [g|e] eqn:Hg; [|discriminate].
    cbn [bind]. intros [= <-]. now apply Hget.
  - destruct l; [|discriminate].
    destruct (config_get name) as [[s|[|x l]]|e] eqn:Hg; cbn [bind app];
      try discriminate; intros [= <-]; reflexivity.
Qed.

Lemma pass_idempotent (args args' : dict value) :
  pass args = (args', None) -> pass args' = (args', None).
Proof.
  revert args'. induction args as [|[k v] args IH]; intros args'.
  - now intros [= <-].
  - cbn [pass merge_entries]. fold merged. fold pass.
    destruct (merged k v) as [new|e] eqn:Hm; [|discriminate].
    destruct (pass args) as [rest' e'] eqn:Hp.
    intros [= <- ->]. cbn [pass merge_entries]. fold merged. fold pass.
    rewrite (merged_value_idempotent _ _ _ Hm).
    now rewrite (IH rest' eq_refl).
Qed.

Lemma pass_keys (args : dict value) : keys (fst (pass args)) = keys args.
Proof.
  induction args as [|[k v] args IH]; [reflexivity|].
  cbn [pass merge_entries]. fold merged. fold pass.
  destruct (merged k v); [|reflexivity].
  destruct (pass args) as [rest' e']. simpl in *. now rewrite IH.
Qed.

(** Merging is idempotent: when the loop has run to its end, running it
    again on the result changes nothing. *)
Theorem merge_loop_idempotent (args args' : dict value) :
  NoDup (keys args) ->
  loop (keys args) args = (args', None) ->
  loop (keys args') args' = (args', None).
Proof.
  intros Hnd H. rewrite merge_loop_as_pass in H by assumption.
  assert (Hk : keys args' = keys args).
  { rewrite <- (pass_keys args). now rewrite H. }
  rewrite merge_loop_as_pass by now rewrite Hk.
  now apply pass_idempotent with args.
Qed.

End LoopAsPass.

Section LoopFrame.
Variable config_has_option : str -> bool.
Variable config_get : str -> result getval.
Variable config_getboolean : str -> result bool.

Let step := merge_option config_has_option config_get config_getboolean.
Let loop := merge_loop config_has_option config_get config_getboolean.
Let merged :=
  merged_value config_has_option config_get config_getboolean.

Lemma merged_value_raises (cli_name : str) (current : value) (e : exn) :
  merged cli_name current = Raise e ->
  exists name, config_get name = Raise e \/ config_getboolean name = Raise e.
Proof.
  unfold merged, merged_value.
  destruct (startswith CLI_OPTION_PREFIX cli_name); cbn [negb];
    [|discriminate].
  destruct (truthy current); [discriminate|].
  destruct (config_has_option _); cbn [negb]; [|discriminate].
  remember (skipn (List.length CLI_OPTION_PREFIX) cli_name) as name.
  intros H. exists name.
  destruct current as [|b|n|s|l];
    try (destruct (config_get name) as [[s'|l']|e'];
         cbn [bind] in H; try discriminate; left; congruence).
  destruct (config_getboolean name) as [b'|e']; cbn [bind] in H;
    [discriminate|]. right. congruence.
Qed.

(** Iterating over its own keys, the loop never fails on its own account
    (no [KeyError]): an exception that ends it was raised by a getter of
    the parser. *)
Theorem merge_loop_raises_only_getter_errors (args : dict value) (e : exn) :
  snd (loop (keys args) args) = Some e ->
  exists name, config_get name = Raise e \/ config_getboolean name = Raise e.
Proof.
  assert (H : forall names a,
             incl names (keys a) -> snd (loop names a) = Some e ->
             exists name,
               config_get name = Raise e \/ config_getboolean name = Raise e).
  { induction names as [|n names IH]; intros a Hincl; simpl;
      [discriminate|].
    destruct (in_keys_getitem a n (Hincl n (or_introl eq_refl)))
      as [v Hv].
    rewrite (merge_option_as_merged_value _ _ _ a n v Hv).
    fold merged. destruct (merged n v) as [new|e'] eqn:Hm; cbn [bind].
    - fold loop. apply IH. intros x Hx.
      rewrite (keys_setitem_present a n new v Hv). apply Hincl. now right.
    - simpl. intros [= ->]. now apply merged_value_raises with n v. }
  apply H. apply incl_refl.
Qed.

(** Whatever the parser is, the loop leaves alone every entry whose name
    does not carry the option prefix and every entry for which the parser
    has no option, also when the loop is ended by an exception. *)
Theorem merge_loop_leaves_foreign_entries (names : list str)
    (args : dict value) (name : str) (v : value) :
  getitem args name = Some v ->
  startswith CLI_OPTION_PREFIX name = false \/
  config_has_option (skipn (List.length CLI_OPTION_PREFIX) name) = false ->
  getitem (fst (loop names args)) name = Some v.
Proof.
  intros Hv Hf.
  assert (Hm : merged name v = Ok v).
  { unfold merged, merged_value. destruct Hf as [-> | Hf]; [reflexivity|].
    destruct (startswith _ _); cbn [negb]; [|reflexivity].
    destruct (truthy v); [reflexivity|]. now rewrite Hf. }
  revert args Hv. induction names as [|n names IH]; intros args Hv; simpl.
  - assumption.
  - destruct (getitem args n) as [w|] eqn:Hn.
    + rewrite (merge_option_as_merged_value _ _ _ args n w Hn).
      fold merged. destruct (merged n w) as [new|e'] eqn:Hw; cbn [bind];
        [|assumption].
      fold loop. apply IH.
      destruct (list_eq_dec ascii_dec n name) as [->|Hne].
      * rewrite Hv in Hn. injection Hn as <-. rewrite Hm in Hw.
        injection Hw as <-. apply getitem_setitem_same.
      * now rewrite getitem_setitem_other.
    + fold step. destruct (step args n) as [args'|e'] eqn:Hs; [|assumption].
      fold loop. apply IH.
      apply merge_option_effect in Hs as [->|(old & new & Ho & _)];
        [assumption|congruence].
Qed.

End LoopFrame.

Lemma args_sample_keys_NoDup : NoDup (keys args_sample).
Proof.
  unfold args_sample, keys. cbn [map fst].
  repeat (constructor;
          [cbn [In]; intros H;
           repeat (destruct H as [H|H]; [discriminate H|]); exact H|]).
  constructor.
Qed.

(** With a parser whose getters work: the runner of the command line stays,
    the empty list takes the two lines, the flag is switched on, the
    positional argument stays. *)
Lemma merge_loop_is_pass_over_entries_witness :
  NoDup (keys args_sample) /\
  merge_loop (has_option cfg_sample pytest_watch) (lookup_get cfg_sample)
    (lookup_getboolean cfg_sample) (keys args_sample) args_sample
  = ([(py "--runner", VStr (py "pytest"));
      (py "--ignore", VList [py "build"; py "dist"]);
      (py "--nobeep", VBool true);
      (py "<directories>", VList [])], None).
Proof.
  refine (conj args_sample_keys_NoDup _).
  exact (merge_loop_is_pass_over_entries (has_option cfg_sample pytest_watch)
           (lookup_get cfg_sample) (lookup_getboolean cfg_sample)
           args_sample args_sample_keys_NoDup).
Defined.

Lemma merge_loop_idempotent_witness :
  NoDup (keys args_sample) /\
  merge_loop (has_option cfg_sample pytest_watch) (lookup_get cfg_sample)
    (lookup_getboolean cfg_sample) (keys args_sample) args_sample
  = ([(py "--runner", VStr (py "pytest"));
      (py "--ignore", VList [py "build"; py "dist"]);
      (py "--nobeep", VBool true);
      (py "<directories>", VList [])], None) /\
  merge_loop (has_option cfg_sample pytest_watch) (lookup_get cfg_sample)
    (lookup_getboolean cfg_sample)
    (keys [(py "--runner", VStr (py "pytest"));
           (py "--ignore", VList [py "build"; py "dist"]);
           (py "--nobeep", VBool true);
           (py "<directories>", VList [])])
    [(py "--runner", VStr (py "pytest"));
     (py "--ignore", VList [py "build"; py "dist"]);
     (py "--nobeep", VBool true);
     (py "<directories>", VList [])]
  = ([(py "--runner", VStr (py "pytest"));
      (py "--ignore", VList [py "build"; py "dist"]);
      (py "--nobeep", VBool true);
      (py "<directories>", VList [])], None).
Proof.
  refine (conj args_sample_keys_NoDup (conj eq_refl _)).
  exact (merge_loop_idempotent (has_option cfg_sample pytest_watch)
           (lookup_get cfg_sample) (lookup_getboolean cfg_sample)
           args_sample _ args_sample_keys_NoDup eq_refl).
Defined.

(** With the parser of the module, the loop over the sample ends at
    [--ignore] with the [TypeError] of [get]. *)
Lemma merge_loop_raises_only_getter_errors_witness :
  snd (merge_loop (has_option cfg_sample pytest_watch)
         (fun name => get lookup_body cfg_sample pytest_watch name
                        (PBool false) PNone PNone)
         (getboolean lookup_body cfg_sample pytest_watch)
         (keys args_sample) args_sample) = Some TypeError /\
  exists name,
    get lookup_body cfg_sample pytest_watch name (PBool false) PNone PNone
    = Raise TypeError \/
    getboolean lookup_body cfg_sample pytest_watch name = Raise TypeError.
Proof.
  refine (conj eq_refl _).
  exact (merge_loop_raises_only_getter_errors
           (has_option cfg_sample pytest_watch)
           (fun name => get lookup_body cfg_sample pytest_watch name
                          (PBool false) PNone PNone)
           (getboolean lookup_body cfg_sample pytest_watch)
           args_sample TypeError eq_refl).
Defined.

(** The positional argument of the sample is an empty list, yet nothing is
    merged into it. *)
Lemma merge_loop_leaves_foreign_entries_witness :
  getitem args_sample (py "<directories>") = Some (VList []) /\
  (startswith CLI_OPTION_PREFIX (py "<directories>") = false \/
   has_option cfg_sample pytest_watch
     (skipn (List.length CLI_OPTION_PREFIX) (py "<directories>")) = false) /\
  getitem
    (fst (merge_loop (has_option cfg_sample pytest_watch)
            (lookup_get cfg_sample) (lookup_getboolean cfg_sample)
            (keys args_sample) args_sample))
    (py "<directories>") = Some (VList []).
Proof.
  refine (conj eq_refl (conj (or_introl eq_refl) _)).
  exact (merge_loop_leaves_foreign_entries
           (has_option cfg_sample pytest_watch) (lookup_get cfg_sample)
           (lookup_getboolean cfg_sample) (keys args_sample) args_sample
           (py "<directories>") (VList []) eq_refl (or_introl eq_refl)).
Defined.

(** ** The items of an array, in general *)

Lemma split_pieces_without_separator (sep : ascii) (s w : str) :
  In w (split sep s) -> ~ In sep w.
Proof.
  revert w. induction s as [|c s IH]; intros w; simpl.
  - intros [<-|[]] [].
  - destruct (Ascii.eqb c sep) eqn:E.
    + intros [<-|H]; [intros []|now apply IH].
    + destruct (split sep s) as [|w0 ws] eqn:Es.
      * intros [<-|[]] [->|[]]. now rewrite Ascii.eqb_refl in E.
      * intros [<-|H].
        -- intros [->|Hin]; [now rewrite Ascii.eqb_refl in E|].
           apply (IH w0); [now left|assumption].
        -- apply IH. now right.
Qed.

Lemma split_pieces_within (sep : ascii) (s w : str) (c : ascii) :
  In w (split sep s) -> In c w -> In c s.
Proof.
  revert w. induction s as [|x s IH]; intros w; simpl.
  - intros [<-|[]] [].
  - destruct (Ascii.eqb x sep) eqn:E.
    + intros [<-|H] Hc; [destruct Hc|]. right. now apply IH with w.
    + destruct (split sep s) as [|w0 ws] eqn:Es.
      * intros [<-|[]] [->|[]]. now left.
      * intros [<-|H] Hc.
        -- destruct Hc as [->|Hc]; [now left|].
           right. apply IH with w0; [now left|assumption].
        -- right. apply IH with w; [now right|assumption].
Qed.

Section StripMoreFacts.
Variable p : ascii -> bool.

Lemma dropwhile_is_suffix (s : str) :
  exists pre, s = pre ++ dropwhile p s.
Proof.
  induction s as [|c s [pre IH]]; simpl.
  - now exists [].
  - destruct (p c).
    + exists (c :: pre). simpl. now f_equal.
    + now exists [].
Qed.

Lemma dropwhile_head (s : str) :
  match dropwhile p s with [] => false | c :: _ => p c end = false.
Proof.
  induction s as [|c s IH]; simpl; [reflexivity|].
  destruct (p c) eqn:E; [exact IH|exact E].
Qed.

Lemma strip_by_within (s : str) (c : ascii) :
  In c (strip_by p s) -> In c s.
Proof.
  unfold strip_by, lstrip_by, rstrip_by. intros H.
  apply in_rev in H.
  destruct (dropwhile_is_suffix (rev (dropwhile p s))) as [pre1 H1].
  assert (H2 : In c (rev (dropwhile p s))).
  { rewrite H1. apply in_or_app. now right. }
  apply in_rev in H2.
  destruct (dropwhile_is_suffix s) as [pre2 H3].
  rewrite H3. apply in_or_app. now right.
Qed.

(** What is left after stripping a class neither starts nor ends with a
    character of the class. *)
Lemma strip_by_leaves_clean_ends (s : str) :
  begins_or_ends_with p (strip_by p s) = false.
Proof.
  unfold begins_or_ends_with, strip_by, lstrip_by, rstrip_by.
  set (t := dropwhile p s). set (u := dropwhile p (rev t)).
  apply orb_false_iff. split.
  - destruct (dropwhile_is_suffix (rev t)) as [pre Hpre]. fold u in Hpre.
    assert (Ht : t = rev u ++ rev pre).
    { rewrite <- rev_app_distr, <- Hpre. now rewrite rev_involutive. }
    pose proof (dropwhile_head s) as Hh. fold t in Hh.
    destruct (rev u) as [|c r]; [reflexivity|].
    rewrite Ht in Hh. exact Hh.
  - rewrite rev_involutive. apply dropwhile_head.
Qed.

End StripMoreFacts.

(** No item of an array holds a comma, and none starts or ends with a
    single quote, whatever the text between the brackets is.  (A double
    quote can stay at the ends, inside a single-quoted token.) *)
Theorem array_items_without_comma_or_outer_quote (items x : str) :
  In x (array_items items) ->
  ~ In ","%char x /\ begins_or_ends_with (char_in [squote]) x = false.
Proof.
  unfold array_items. intros H.
  apply in_map_iff in H as (item & <- & Hitem).
  apply filter_In in Hitem as [Hitem _].
  split.
  - intros Hc. unfold strip_chars, strip in Hc.
    do 3 apply strip_by_within in Hc.
    now apply (split_pieces_without_separator _ _ _ Hitem).
  - apply strip_by_leaves_clean_ends.
Qed.

(** The second token is in single quotes around double quotes. *)
Lemma array_items_without_comma_or_outer_quote_witness :
  In ([dquote] ++ py "b" ++ [dquote])
     (array_items (py "a, '" ++ [dquote] ++ py "b" ++ [dquote] ++ py "'")) /\
  ~ In ","%char ([dquote] ++ py "b" ++ [dquote]) /\
  begins_or_ends_with (char_in [squote]) ([dquote] ++ py "b" ++ [dquote])
  = false.
Proof.
  assert (H : In ([dquote] ++ py "b" ++ [dquote])
     (array_items (py "a, '" ++ [dquote] ++ py "b" ++ [dquote] ++ py "'")))
    by (vm_compute; auto).
  refine (conj H _).
  exact (array_items_without_comma_or_outer_quote
           (py "a, '" ++ [dquote] ++ py "b" ++ [dquote] ++ py "'")
           ([dquote] ++ py "b" ++ [dquote]) H).
Defined.

(** Brackets that hold nothing but blanks and commas hold no item. *)
Theorem array_items_of_blank_text (items : str) :
  forallb space_or_comma items = true -> array_items items = [].
Proof.
  intros H. unfold array_items.
  assert (Hf : filter
                 (fun item => match strip item with [] => false | _ => true end)
                 (split ","%char items) = []).
  { rewrite <- (filter_false (split ","%char items)).
    apply filter_ext_in. intros w Hw.
    assert (Hsp : forallb isspace w = true).
    { apply forallb_forall. intros c Hc.
      pose proof (split_pieces_within _ _ _ _ Hw Hc) as Hin.
      rewrite forallb_forall in H. specialize (H c Hin).
      unfold space_or_comma in H. apply orb_true_iff in H as [H|H];
        [assumption|].
      apply Ascii.eqb_eq in H. subst c.
      exfalso. now apply (split_pieces_without_separator _ _ _ Hw). }
    unfold strip, strip_by, lstrip_by, rstrip_by.
    now rewrite (dropwhile_all_nil isspace w Hsp). }
  now rewrite Hf.
Qed.

Lemma array_items_of_blank_text_witness :
  forallb space_or_comma (py " , " ++ [nl] ++ py ",  ") = true /\
  array_items (py " , " ++ [nl] ++ py ",  ") = [].
Proof.
  refine (conj eq_refl _).
  exact (array_items_of_blank_text (py " , " ++ [nl] ++ py ",  ") eq_refl).
Defined.

(** ** Which match [array_pattern] takes *)

Lemma hd_error_flat_map {A B : Type} (f : A -> list B) (x : A) (l : list A)
    (y : B) :
  hd_error (f x) = Some y -> hd_error (flat_map f (x :: l)) = Some y.
Proof.
  simpl. destruct (f x); [discriminate|]. now intros [= ->].
Qed.

Lemma hd_run_cat (a b : regex) (bol : bool) (s : str) (m1 m2 : matched) :
  hd_error (run a bol s) = Some m1 ->
  hd_error (run b (at_bol m1) (remaining m1)) = Some m2 ->
  hd_error (run (Cat a b) bol s) = Some (then_ m1 m2).
Proof.
  intros H1 H2. cbn [run].
  destruct (run a bol s) as [|x l]; [discriminate|].
  injection H1 as ->. apply hd_error_flat_map.
  destruct (run b (at_bol m1) (remaining m1)); [discriminate|].
  now injection H2 as ->.
Qed.

Lemma hd_run_group (name : string) (r : regex) (bol : bool) (s : str)
    (m : matched) :
  hd_error (run r bol s) = Some m ->
  hd_error (run (Group name r) bol s)
  = Some (Matched ((name, consumed m) :: groups m) (consumed m) (at_bol m)
                  (remaining m)).
Proof.
  intros H. cbn [run]. destruct (run r bol s); [discriminate|].
  now injection H as ->.
Qed.

Lemma hd_run_cls (p : ascii -> bool) (bol : bool) (c : ascii) (s : str) :
  p c = true ->
  hd_error (run (Cls p) bol (c :: s))
  = Some (Matched [] [c] (Ascii.eqb c nl) s).
Proof. intros H. cbn [run]. now rewrite H. Qed.

(** The greedy star takes the whole run when what follows is outside the
    class. *)
Lemma hd_run_star_greedy (p : ascii -> bool) (w rest : str) (bol : bool) :
  forallb p w = true ->
  match rest with [] => false | c :: _ => p c end = false ->
  hd_error (run (Star true p) bol (w ++ rest))
  = Some (Matched [] w (bol_after bol w) rest).
Proof.
  cbn [run]. revert bol. induction w as [|c w IH]; intros bol Hw Hr.
  - destruct rest as [|c r]; [reflexivity|]. simpl. now rewrite Hr.
  - simpl in Hw. apply andb_true_iff in Hw as [Hc Hw].
    cbn [app star_greedy]. rewrite Hc.
    specialize (IH (Ascii.eqb c nl) Hw Hr).
    destruct (star_greedy p (Ascii.eqb c nl) (w ++ rest)) as [|m ms];
      [discriminate|].
    injection IH as ->. reflexivity.
Qed.

(** The lazy star before a closing bracket stops at the first one. *)
Lemma hd_run_lazy_items (pre items rest : str) (bol : bool) :
  ~ In "]"%char items ->
  hd_error
    (flat_map
       (fun m1 =>
          map (then_ m1)
              (run (Cls (chr "]"%char)) (at_bol m1) (remaining m1)))
       (map (fun m => Matched (("items"%string, pre ++ consumed m) :: groups m)
                              (pre ++ consumed m) (at_bol m) (remaining m))
            (star_lazy any_char bol (items ++ "]"%char :: rest))))
  = Some (Matched [("items"%string, pre ++ items)]
                  (pre ++ items ++ ["]"%char]) false rest).
Proof.
  revert pre bol. induction items as [|c items IH]; intros pre bol Hi.
  - cbn [app star_lazy map]. apply hd_error_flat_map.
    cbn. now rewrite !app_nil_r.
  - cbn [app star_lazy]. cbn [any_char map flat_map].
    assert (Hc : Ascii.eqb "]"%char c = false).
    { destruct (Ascii.eqb "]"%char c) eqn:E; [|reflexivity].
      apply Ascii.eqb_eq in E. exfalso. apply Hi. now left. }
    cbn [run remaining at_bol]. unfold chr at 1. rewrite Hc. cbn [map app].
    rewrite map_map.
    match goal with
    | |- context [map ?f (star_lazy _ _ _)] =>
        rewrite (map_ext f
                   (fun m => Matched
                               (("items"%string, (pre ++ [c]) ++ consumed m)
                                  :: groups m)
                               ((pre ++ [c]) ++ consumed m) (at_bol m)
                               (remaining m)))
    end.
    + replace (pre ++ c :: items) with ((pre ++ [c]) ++ items)
        by now rewrite <- app_assoc.
      replace (pre ++ c :: items ++ ["]"%char])
        with ((pre ++ [c]) ++ items ++ ["]"%char])
        by now rewrite <- app_assoc.
      refine (IH (pre ++ [c]) (Ascii.eqb c nl) _).
      intros H. apply Hi. now right.
    + intros m. unfold extend. cbn.
      now rewrite <- !app_assoc.
Qed.

Lemma hd_run_items_tail (items rest : str) (bol : bool) :
  ~ In "]"%char items ->
  hd_error (run (Cat (Group "items" (Star false any_char))
                     (Cls (chr "]"%char)))
                bol (items ++ "]"%char :: rest))
  = Some (Matched [("items"%string, items)] (items ++ ["]"%char]) false rest).
Proof.
  intros Hi. cbn [run].
  pose proof (hd_run_lazy_items [] items rest bol Hi) as H.
  cbn [app] in H. exact H.
Qed.

Lemma head_after_spaces (p : ascii -> bool) (ws : str) (d : ascii)
    (tail : str) :
  forallb isspace ws = true -> p d = false ->
  (forall x, isspace x = true -> p x = false) ->
  match ws ++ d :: tail with [] => false | c :: _ => p c end = false.
Proof.
  intros Hws Hd Hp. destruct ws as [|x ws]; [exact Hd|].
  simpl in Hws. apply andb_true_iff in Hws as [Hx _]. now apply Hp.
Qed.

Lemma array_pattern_takes_assignment (ws1 name ws2 ws3 items rest : str) :
  forallb isspace ws1 = true -> forallb isspace ws2 = true ->
  forallb isspace ws3 = true ->
  name <> [] -> forallb not_eq_space name = true ->
  ~ In "]"%char items ->
  exists m,
    match_here array_pattern true
      (ws1 ++ name ++ ws2 ++ "="%char :: ws3 ++ "["%char :: items
           ++ "]"%char :: rest) = Some m /\
    groups m = [("key"%string, array_key ws1 name ws2 ws3);
                ("items"%string, items)] /\
    consumed m = array_assignment ws1 name ws2 ws3 items /\
    remaining m = rest.
Proof.
  intros H1 H2 H3 Hne Hn Hi.
  destruct name as [|c name]; [contradiction|].
  pose proof Hn as Hn'. simpl in Hn'.
  apply andb_true_iff in Hn' as [Hc Hname].
  assert (Hcs : isspace c = false).
  { unfold not_eq_space in Hc. apply andb_true_iff in Hc as [_ Hc].
    now destruct (isspace c). }
  eexists. split.
  - unfold match_here, array_pattern.
    eapply hd_run_cat; [reflexivity|]. cbn [at_bol remaining].
    eapply hd_run_cat.
    + eapply hd_run_group.
      eapply hd_run_cat.
      { apply (hd_run_star_greedy space ws1); [exact H1|exact Hcs]. }
      cbn [at_bol remaining app].
      eapply hd_run_cat.
      { eapply hd_run_cat; [apply hd_run_cls; exact Hc|].
        cbn [at_bol remaining].
        apply (hd_run_star_greedy not_eq_space name); [exact Hname|].
        apply head_after_spaces; [exact H2|reflexivity|].
        intros x Hx. unfold not_eq_space. rewrite Hx.
        apply andb_false_r. }
      cbn [at_bol remaining then_].
      eapply hd_run_cat.
      { apply (hd_run_star_greedy space ws2); [exact H2|reflexivity]. }
      cbn [at_bol remaining].
      eapply hd_run_cat; [apply hd_run_cls; reflexivity|].
      cbn [at_bol remaining].
      apply (hd_run_star_greedy space ws3); [exact H3|reflexivity].
    + cbn [at_bol remaining then_].
      eapply hd_run_cat; [apply hd_run_cls; reflexivity|].
      cbn [at_bol remaining].
      apply hd_run_items_tail. exact Hi.
  - unfold array_assignment, array_key. cbn. auto.
Qed.

(** At a line start, a name without blank or equals sign, the equals sign
    and a bracketed text up to the first closing bracket are replaced by the
    key as it is written and the items joined by the separator; the
    normalisation then goes on after the closing bracket. *)
Theorem normalize_array_assignment (ws1 name ws2 ws3 items rest : str) :
  forallb isspace ws1 = true -> forallb isspace ws2 = true ->
  forallb isspace ws3 = true ->
  name <> [] -> forallb not_eq_space name = true ->
  ~ In "]"%char items ->
  normalize (array_assignment ws1 name ws2 ws3 items ++ rest)
  = array_key ws1 name ws2 ws3
    ++ join array_item_separator (array_items items)
    ++ sub_from array_pattern _replace_array 0 false rest.
Proof.
  intros H1 H2 H3 Hne Hn Hi.
  destruct (array_pattern_takes_assignment ws1 name ws2 ws3 items rest
              H1 H2 H3 Hne Hn Hi) as (m & Hm & Hg & Hc & Hr).
  unfold normalize, sub.
  replace (array_assignment ws1 name ws2 ws3 items ++ rest)
    with (ws1 ++ name ++ ws2 ++ "="%char :: ws3 ++ "["%char :: items
              ++ "]"%char :: rest).
  2:{ unfold array_assignment, array_key.
      now repeat (rewrite <- ?app_assoc; cbn [app]). }
  rewrite (normalize_at_match _ _ _ Hm).
  unfold _replace_array. rewrite Hg, Hr. cbn [group String.eqb].
  now rewrite <- app_assoc.
Qed.

(** An indented assignment of three items, two of them quoted, followed by
    a further line. *)
Lemma normalize_array_assignment_witness :
  forallb isspace (py "  ") = true /\ forallb isspace (py " ") = true /\
  forallb isspace (py " ") = true /\
  py "ignore" <> [] /\ forallb not_eq_space (py "ignore") = true /\
  ~ In "]"%char (py "'a', b ,c") /\
  normalize (array_assignment (py "  ") (py "ignore") (py " ") (py " ")
               (py "'a', b ,c") ++ [nl] ++ py "x = 1")
  = py "  ignore = a\nb\nc" ++ [nl] ++ py "x = 1".
Proof.
  assert (Hne : py "ignore" <> []) by discriminate.
  assert (Hi : ~ In "]"%char (py "'a', b ,c")).
  { cbn [py list_ascii_of_string In]. intros H.
    repeat (destruct H as [H|H]; [discriminate H|]). exact H. }
  refine (conj eq_refl (conj eq_refl (conj eq_refl
            (conj Hne (conj eq_refl (conj Hi _)))))).
  exact (normalize_array_assignment (py "  ") (py "ignore") (py " ")
           (py " ") (py "'a', b ,c") ([nl] ++ py "x = 1")
           eq_refl eq_refl eq_refl Hne eq_refl Hi).
Defined.

Lemma hd_error_flat_map_inv {A B : Type} (f : A -> list B) (l : list A)
    (y : B) :
  hd_error (flat_map f l) = Some y ->
  exists x, In x l /\ hd_error (f x) = Some y.
Proof.
  induction l as [|x l IH]; simpl; [discriminate|].
  destruct (f x) as [|z zs] eqn:E; simpl.
  - intros H. destruct (IH H) as (x' & Hin & Hx'). exists x'. auto.
  - intros [= ->]. exists x. rewrite E. auto.
Qed.

Lemma hd_error_map_inv {A B : Type} (g : A -> B) (l : list A) (y : B) :
  hd_error (map g l) = Some y -> exists x, hd_error l = Some x /\ y = g x.
Proof.
  destruct l as [|x l]; simpl; [discriminate|].
  intros [= <-]. now exists x.
Qed.

Lemma hd_run_cat_inv (a b : regex) (bol : bool) (s : str) (m : matched) :
  hd_error (run (Cat a b) bol s) = Some m ->
  exists m1 m2,
    In m1 (run a bol s) /\
    hd_error (run b (at_bol m1) (remaining m1)) = Some m2 /\
    m = then_ m1 m2.
Proof.
  cbn [run]. intros H.
  apply hd_error_flat_map_inv in H as (m1 & Hin & H).
  apply hd_error_map_inv in H as (m2 & H2 & ->).
  now exists m1, m2.
Qed.

Lemma in_run_cat_inv (a b : regex) (bol : bool) (s : str) (m : matched) :
  In m (run (Cat a b) bol s) ->
  exists m1 m2,
    In m1 (run a bol s) /\
    In m2 (run b (at_bol m1) (remaining m1)) /\
    m = then_ m1 m2.
Proof.
  cbn [run]. intros H. apply in_flat_map in H as (m1 & H1 & H).
  apply in_map_iff in H as (m2 & <- & H2). now exists m1, m2.
Qed.

Lemma in_run_cls_inv (p : ascii -> bool) (bol : bool) (s : str)
    (m : matched) :
  In m (run (Cls p) bol s) ->
  exists c, p c = true /\ s = c :: remaining m /\ consumed m = [c] /\
            groups m = [].
Proof.
  cbn [run]. destruct s as [|c s]; [contradiction|].
  destruct (p c) eqn:E; [|contradiction].
  intros [<-|[]]. now exists c.
Qed.

Lemma in_star_greedy_inv (p : ascii -> bool) (s : str) (bol : bool)
    (m : matched) :
  In m (star_greedy p bol s) ->
  forallb p (consumed m) = true /\ groups m = [].
Proof.
  revert bol m. induction s as [|c s IH]; intros bol m; simpl.
  - intros [<-|[]]. auto.
  - destruct (p c) eqn:E.
    + intros H. apply in_app_or in H as [H|[<-|[]]]; [|auto].
      apply in_map_iff in H as (m' & <- & Hm').
      destruct (IH _ _ Hm') as [Hc Hg]. simpl. now rewrite E, Hc.
    + intros [<-|[]]. auto.
Qed.

(** The lazy star before a closing bracket, read backwards: the first way
    to match stops at the first closing bracket. *)
Lemma hd_run_lazy_items_inv (pre s : str) (bol : bool) (m : matched) :
  hd_error
    (flat_map
       (fun m1 =>
          map (then_ m1)
              (run (Cls (chr "]"%char)) (at_bol m1) (remaining m1)))
       (map (fun m => Matched (("items"%string, pre ++ consumed m) :: groups m)
                              (pre ++ consumed m) (at_bol m) (remaining m))
            (star_lazy any_char bol s)))
  = Some m ->
  exists items,
    ~ In "]"%char items /\ s = items ++ "]"%char :: remaining m /\
    groups m = [("items"%string, pre ++ items)] /\
    consumed m = pre ++ items ++ ["]"%char].
Proof.
  revert pre bol. induction s as [|c s IH]; intros pre bol.
  - cbn. discriminate.
  - cbn [star_lazy any_char map flat_map].
    cbn [run remaining at_bol]. unfold chr at 1.
    destruct (Ascii.eqb "]"%char c) eqn:Ec.
    + apply Ascii.eqb_eq in Ec. subst c. cbn [map app hd_error].
      intros [= <-]. exists []. cbn. rewrite !app_nil_r. auto.
    + cbn [map app]. rewrite map_map.
      match goal with
      | |- context [map ?f (star_lazy _ _ _)] =>
          rewrite (map_ext f
                     (fun m => Matched
                                 (("items"%string, (pre ++ [c]) ++ consumed m)
                                    :: groups m)
                                 ((pre ++ [c]) ++ consumed m) (at_bol m)
                                 (remaining m)))
      end.
      * intros H.
        destruct (IH (pre ++ [c]) (Ascii.eqb c nl) H)
          as (items & Hi & Hs & Hg & Hc).
        exists (c :: items). repeat split.
        -- intros [->|Hin]; [now rewrite Ascii.eqb_refl in Ec|contradiction].
        -- cbn [app]. now f_equal.
        -- rewrite Hg. now rewrite <- app_assoc.
        -- rewrite Hc. now rewrite <- app_assoc.
      * intros m'. unfold extend. cbn. now rewrite <- !app_assoc.
Qed.

(** What the key group of [array_pattern] can consume. *)
Lemma in_run_key_inv (bol : bool) (s : str) (m : matched) :
  In m (run (Cat (Star true space)
            (Cat (Cat (Cls not_eq_space) (Star true not_eq_space))
            (Cat (Star true space)
            (Cat (Cls (chr "="%char))
                 (Star true space))))) bol s) ->
  exists ws1 name ws2 ws3,
    consumed m = array_key ws1 name ws2 ws3 /\ groups m = [] /\
    forallb isspace ws1 = true /\ forallb isspace ws2 = true /\
    forallb isspace ws3 = true /\
    name <> [] /\ forallb not_eq_space name = true.
Proof.
  intros H.
  apply in_run_cat_inv in H as (a1 & r1 & Ha1 & H & ->).
  apply in_run_cat_inv in H as (n & r2 & Hn & H & ->).
  apply in_run_cat_inv in Hn as (n1 & n2 & Hn1 & Hn2 & ->).
  apply in_run_cat_inv in H as (a2 & r3 & Ha2 & H & ->).
  apply in_run_cat_inv in H as (e & a3 & He & Ha3 & ->).
  apply in_star_greedy_inv in Ha1 as [Ha1 Hg1].
  apply in_star_greedy_inv in Hn2 as [Hn2 Hgn2].
  apply in_star_greedy_inv in Ha2 as [Ha2 Hg2].
  apply in_star_greedy_inv in Ha3 as [Ha3 Hg3].
  apply in_run_cls_inv in Hn1 as (c & Hc & _ & Hcn1 & Hgn1).
  apply in_run_cls_inv in He as (d & Hd & _ & Hce & Hge).
  apply Ascii.eqb_eq in Hd. subst d.
  exists (consumed a1), (c :: consumed n2), (consumed a2), (consumed a3).
  cbn [then_ consumed groups]. rewrite Hg1, Hgn1, Hgn2, Hg2, Hge, Hg3, Hcn1, Hce.
  unfold array_key. cbn [app]. repeat split; try assumption.
  - discriminate.
  - cbn [forallb]. now rewrite Hc, Hn2.
Qed.

Lemma array_pattern_match_inv (s : str) (bol : bool) (m : matched) :
  match_here array_pattern bol s = Some m ->
  exists ws1 name ws2 ws3 items,
    bol = true /\
    s = array_assignment ws1 name ws2 ws3 items ++ remaining m /\
    consumed m = array_assignment ws1 name ws2 ws3 items /\
    forallb isspace ws1 = true /\ forallb isspace ws2 = true /\
    forallb isspace ws3 = true /\
    name <> [] /\ forallb not_eq_space name = true /\
    ~ In "]"%char items /\
    group "key" (groups m) = array_key ws1 name ws2 ws3 /\
    group "items" (groups m) = items.
Proof.
  intros Hm.
  pose proof (run_splits _ _ _ _ (match_here_in_run _ _ _ _ Hm)) as Hs.
  unfold match_here, array_pattern in Hm.
  apply hd_run_cat_inv in Hm as (m0 & m' & H0 & Hm & ->).
  cbn [run] in H0. destruct bol; [|contradiction].
  destruct H0 as [<-|[]]. cbn [at_bol remaining] in Hm.
  apply hd_run_cat_inv in Hm as (mk & mr & Hk & Hm & ->).
  cbn [run] in Hk. apply in_map_iff in Hk as (mi & <- & Hi).
  apply in_run_key_inv in Hi
    as (ws1 & name & ws2 & ws3 & Hc & Hg & H1 & H2 & H3 & Hne & Hn).
  cbn [at_bol remaining] in Hm.
  apply hd_run_cat_inv in Hm as (ml & mt & Hl & Ht & ->).
  apply in_run_cls_inv in Hl as (c & Hcb & _ & Hcl & Hgl).
  apply Ascii.eqb_eq in Hcb. subst c.
  cbn [run] in Ht.
  apply (hd_run_lazy_items_inv []) in Ht as (items & Hi & _ & Hgt & Hct).
  exists ws1, name, ws2, ws3, items.
  cbn [then_ consumed groups remaining app] in *.
  rewrite Hc, Hg, Hcl, Hgl, Hct, Hgt in *. cbn [app] in *.
  assert (Hcons : array_key ws1 name ws2 ws3 ++ "["%char :: items ++ ["]"%char]
                  = array_assignment ws1 name ws2 ws3 items) by reflexivity.
  rewrite Hcons in *.
  repeat split; try assumption; reflexivity.
Qed.

(** The match that [array_pattern] takes, read backwards: it starts at a
    line start, its key is a name without blank or equals sign between
    optional blanks and before the equals sign, and its items stop at the
    first closing bracket (the match is lazy), so they hold none. *)
Theorem array_pattern_match_shape (s : str) (bol : bool) (m : matched) :
  match_here array_pattern bol s = Some m ->
  exists ws1 name ws2 ws3 items,
    bol = true /\
    s = array_assignment ws1 name ws2 ws3 items ++ remaining m /\
    consumed m = array_assignment ws1 name ws2 ws3 items /\
    forallb isspace ws1 = true /\ forallb isspace ws2 = true /\
    forallb isspace ws3 = true /\
    name <> [] /\ forallb not_eq_space name = true /\
    ~ In "]"%char items /\
    group "key" (groups m) = array_key ws1 name ws2 ws3 /\
    group "items" (groups m) = items.
Proof. exact (array_pattern_match_inv s bol m). Qed.

Lemma array_pattern_match_shape_witness :
  match_here array_pattern true (py "k = [[a]] ; [b]")
  = Some (Matched [("key"%string, py "k = "); ("items"%string, py "[a")]
                  (py "k = [[a]") false (py "] ; [b]")) /\
  exists ws1 name ws2 ws3 items,
    true = true /\
    py "k = [[a]] ; [b]"
    = array_assignment ws1 name ws2 ws3 items ++ py "] ; [b]" /\
    py "k = [[a]" = array_assignment ws1 name ws2 ws3 items /\
    forallb isspace ws1 = true /\ forallb isspace ws2 = true /\
    forallb isspace ws3 = true /\
    name <> [] /\ forallb not_eq_space name = true /\
    ~ In "]"%char items /\
    py "k = " = array_key ws1 name ws2 ws3 /\
    py "[a" = items.
Proof.
  refine (conj eq_refl _).
  exact (array_pattern_match_shape (py "k = [[a]] ; [b]") true
           (Matched [("key"%string, py "k = "); ("items"%string, py "[a")]
                    (py "k = [[a]") false (py "] ; [b]")) eq_refl).
Defined.

Lemma array_pattern_needs_three_characters (s : str) (bol : bool)
    (m : matched) :
  match_here array_pattern bol s = Some m ->
  In "="%char s /\ In "["%char s /\ In "]"%char s.
Proof.
  intros H. apply array_pattern_match_inv in H
    as (ws1 & name & ws2 & ws3 & items & _ & -> & _).
  unfold array_assignment, array_key.
  repeat split; apply in_or_app.
  - left. apply in_or_app. left. apply in_or_app. right.
    apply in_or_app. right. apply in_or_app. right. now left.
  - left. apply in_or_app. right. now left.
  - left. apply in_or_app. right. right. apply in_or_app. right. now left.
Qed.

Lemma search_without_character (c : ascii) (s : str) (start : nat)
    (bol : bool) :
  (forall b s' m, match_here array_pattern b s' = Some m -> In c s') ->
  ~ In c s -> search_from array_pattern start bol s = None.
Proof.
  intros Hneed. revert start bol.
  induction s as [|x s IH]; intros start bol Hs; cbn [search_from].
  - destruct (match_here array_pattern bol []) as [m|] eqn:E; [|reflexivity].
    exfalso. apply Hs. now apply (Hneed _ _ _ E).
  - destruct (match_here array_pattern bol (x :: s)) as [m|] eqn:E.
    + exfalso. apply Hs. now apply (Hneed _ _ _ E).
    + apply IH. intros Hin. apply Hs. now right.
Qed.

(** Content that lacks the equals sign, the opening bracket or the closing
    bracket is returned unchanged by the normalisation. *)
Theorem normalize_needs_equals_and_brackets (content : str) :
  ~ In "="%char content \/ ~ In "["%char content \/ ~ In "]"%char content ->
  normalize content = content.
Proof.
  intros H. unfold normalize, sub. apply sub_from_no_match with 0.
  destruct H as [H|[H|H]].
  - apply (search_without_character "="%char); [|assumption].
    intros b s' m Hm. now apply array_pattern_needs_three_characters in Hm.
  - apply (search_without_character "["%char); [|assumption].
    intros b s' m Hm. now apply array_pattern_needs_three_characters in Hm.
  - apply (search_without_character "]"%char); [|assumption].
    intros b s' m Hm. now apply array_pattern_needs_three_characters in Hm.
Qed.

(** A section with an option whose value holds brackets after a colon: no
    equals sign, so nothing is rewritten. *)
Lemma normalize_needs_equals_and_brackets_witness :
  (~ In "="%char (py "[s]" ++ [nl] ++ py "k: [a, b]") \/
   ~ In "["%char (py "[s]" ++ [nl] ++ py "k: [a, b]") \/
   ~ In "]"%char (py "[s]" ++ [nl] ++ py "k: [a, b]")) /\
  normalize (py "[s]" ++ [nl] ++ py "k: [a, b]")
  = py "[s]" ++ [nl] ++ py "k: [a, b]".
Proof.
  assert (H : ~ In "="%char (py "[s]" ++ [nl] ++ py "k: [a, b]")).
  { cbn. intros H. repeat (destruct H as [H|H]; [discriminate H|]).
    exact H. }
  refine (conj (or_introl H) _).
  exact (normalize_needs_equals_and_brackets
           (py "[s]" ++ [nl] ++ py "k: [a, b]") (or_introl H)).
Defined.

(** ** What [merge_config] can raise *)

Lemma get_cursect_set_cursect (rd : reader) (cur : cursor)
    (d : dict (list str)) :
  get_cursect (set_cursect rd cur d) cur = Some d.
Proof.
  destruct cur as [|name]; simpl; [reflexivity|].
  apply getitem_setitem_same.
Qed.

Lemma append_value_ok (rd : reader) (cur : cursor) (opt v : str) :
  reader_ok rd -> cursect rd = Some cur ->
  current_option rd = Some opt ->
  exists rd', append_value rd cur opt v = Ok rd' /\ reader_ok rd'.
Proof.
  unfold reader_ok. intros Hok Hcur Hopt. rewrite Hcur, Hopt in Hok.
  destruct Hok as (d & Hd & lines & Hl).
  unfold append_value. rewrite Hd, Hl. eexists. split; [reflexivity|].
  assert (Hc : cursect (set_cursect rd cur (setitem d opt (lines ++ [v])))
               = Some cur) by (destruct cur; exact Hcur).
  assert (Ho : current_option
                 (set_cursect rd cur (setitem d opt (lines ++ [v])))
               = Some opt) by (destruct cur; exact Hopt).
  rewrite Hc, Ho. eexists. split; [apply get_cursect_set_cursect|].
  eexists. apply getitem_setitem_same.
Qed.

Lemma read_section_header_ok (rd : reader) (indent : nat) (name : str)
    (e : exn) :
  (read_section_header rd indent name = Raise e ->
   e = DuplicateSectionError) /\
  (forall rd', read_section_header rd indent name = Ok rd' -> reader_ok rd').
Proof.
  unfold read_section_header, contains.
  destruct (getitem (r_sections rd) name) as [d|] eqn:Hg.
  - destruct (is_added (name, None) rd).
    + split; [now intros [= <-]|discriminate].
    + split; [discriminate|]. intros rd' [= <-].
      unfold reader_ok. simpl. now exists d.
  - destruct (str_eqb name default_section).
    + split; [discriminate|]. intros rd' [= <-].
      unfold reader_ok. simpl. now exists (r_defaults rd).
    + split; [discriminate|]. intros rd' [= <-].
      unfold reader_ok. simpl. exists []. split; [|exact I].
      apply getitem_setitem_same.
Qed.

Lemma read_option_ok (rd : reader) (cur : cursor) (indent : nat)
    (value : str) (e : exn) :
  reader_ok rd -> cursect rd = Some cur ->
  (read_option rd cur indent value = Raise e -> e = DuplicateOptionError) /\
  (forall rd', read_option rd cur indent value = Ok rd' -> reader_ok rd').
Proof.
  intros Hok Hcur. unfold read_option.
  destruct (match_here OPTCRE true value) as [mo|].
  - destruct (is_added _ rd).
    + split; [now intros [= <-]|discriminate].
    + unfold reader_ok in Hok. rewrite Hcur in Hok.
      destruct Hok as (d & Hd & _).
      unfold assign_value.
      assert (Hd' : forall a s o i er,
                 get_cursect (with_line_state rd a (cursect rd) s o i er) cur
                 = Some d) by (intros; destruct cur; exact Hd).
      rewrite Hd'. split; [discriminate|]. intros rd' [= <-].
      unfold reader_ok.
      match goal with
      | |- context [set_cursect ?r cur ?dd] =>
          assert (Hc : cursect (set_cursect r cur dd) = Some cur)
            by (destruct cur; exact Hcur);
          assert (Ho : optname (set_cursect r cur dd)
                       = Some (lower (rstrip (group "option" (groups mo)))))
            by (destruct cur; reflexivity)
      end.
      rewrite Hc. eexists. split; [apply get_cursect_set_cursect|].
      unfold current_option. rewrite Ho.
      destruct (lower (rstrip (group "option" (groups mo)))); [exact I|].
      eexists. apply getitem_setitem_same.
  - split; [discriminate|]. intros rd' [= <-].
    unfold reader_ok in *. cbn [with_line_state cursect].
    rewrite Hcur in *. destruct Hok as (d & Hd & Ho).
    exists d. split; [destruct cur; exact Hd|exact Ho].
Qed.

Lemma read_line_ok (rd : reader) (line : str) (e : exn) :
  reader_ok rd ->
  (read_line rd line = Raise e ->
   e = MissingSectionHeaderError \/ e = DuplicateSectionError \/
   e = DuplicateOptionError) /\
  (forall rd', read_line rd line = Ok rd' -> reader_ok rd').
Proof.
  intros Hok. unfold read_line.
  assert (Happ : forall cur opt v,
             cursect rd = Some cur -> current_option rd = Some opt ->
             (append_value rd cur opt v = Raise e ->
              e = MissingSectionHeaderError \/ e = DuplicateSectionError \/
              e = DuplicateOptionError) /\
             (forall rd', append_value rd cur opt v = Ok rd' ->
                          reader_ok rd')).
  { intros cur opt v Hc Ho.
    destruct (append_value_ok rd cur opt v Hok Hc Ho) as (rd1 & -> & H1).
    split; [discriminate|]. now intros rd' [= <-]. }
  assert (Hrest : forall indent value,
             (match match_here SECTCRE true value with
              | Some mo =>
                  read_section_header rd indent (group "header" (groups mo))
              | None =>
                  match cursect rd with
                  | None => Raise MissingSectionHeaderError
                  | Some cur => read_option rd cur indent value
                  end
              end = Raise e ->
              e = MissingSectionHeaderError \/ e = DuplicateSectionError \/
              e = DuplicateOptionError) /\
             (forall rd',
                match match_here SECTCRE true value with
                | Some mo =>
                    read_section_header rd indent
                      (group "header" (groups mo))
                | None =>
                    match cursect rd with
                    | None => Raise MissingSectionHeaderError
                    | Some cur => read_option rd cur indent value
                    end
                end = Ok rd' -> reader_ok rd')).
  { intros indent value.
    destruct (match_here SECTCRE true value) as [mo|].
    - destruct (read_section_header_ok rd indent
                  (group "header" (groups mo)) e) as [H1 H2].
      split; [intros H; right; left; now apply H1|exact H2].
    - destruct (cursect rd) as [cur|] eqn:Hc.
      + destruct (read_option_ok rd cur indent value e Hok Hc) as [H1 H2].
        split; [intros H; right; right; now apply H1|exact H2].
      + split; [intros [= <-]; now left|discriminate]. }
  destruct (if is_comment line then [] else strip line) as [|c value].
  - destruct (is_comment line).
    + split; [discriminate|]. now intros rd' [= <-].
    + destruct (cursect rd) as [cur|] eqn:Hc.
      * destruct (current_option rd) as [opt|] eqn:Ho.
        -- now apply Happ.
        -- split; [discriminate|]. now intros rd' [= <-].
      * split; [discriminate|]. now intros rd' [= <-].
  - cbv zeta.
    match goal with
    | |- context [indent_level rd <? ?i] =>
        specialize (Hrest i (c :: value))
    end.
    match type of Hrest with
    | (?r = Raise e -> _) /\ _ => set (rest := r) in *; clearbody rest
    end.
    destruct (cursect rd) as [cur|] eqn:Hc; [|exact Hrest].
    destruct (current_option rd) as [opt|] eqn:Ho; [|exact Hrest].
    destruct (indent_level rd <? _); [|exact Hrest].
    now apply Happ.
Qed.

Lemma read_lines_errors (lines : list str) (rd : reader) (e : exn) :
  reader_ok rd -> read_lines rd lines = Raise e ->
  e = MissingSectionHeaderError \/ e = DuplicateSectionError \/
  e = DuplicateOptionError.
Proof.
  revert rd. induction lines as [|line lines IH]; intros rd Hok; simpl;
    [discriminate|].
  destruct (read_line_ok rd line e Hok) as [H1 H2].
  destruct (read_line rd line) as [rd'|e'] eqn:E; cbn [bind].
  - apply IH. now apply H2.
  - intros [= ->]. now apply H1.
Qed.

(** Reading a text raises nothing but the four errors of [configparser]:
    in particular the writes to [cursect[optname]] never fail. *)
Lemma _read_errors (content : str) (e : exn) :
  _read content = Raise e -> In e reading_errors.
Proof.
  unfold _read, reading_errors.
  destruct (read_lines new_reader (readlines content)) as [rd|e'] eqn:E;
    cbn [bind].
  - destruct (error rd); [|discriminate]. intros [= <-]. cbn; auto.
  - intros [= ->].
    apply read_lines_errors in E; [|exact I].
    cbn. intuition.
Qed.

(** An exception other than [KeyboardInterrupt] and [CollectError] that
    leaves one dry run is the runner's own, and is never [StopCollect]. *)
Lemma run_pytest_collect_errors (E : env) (call : nat)
    (pytest_args : list str) (e : exn) :
  _run_pytest_collect E call pytest_args = Raise e ->
  e = KeyboardInterrupt \/ e = CollectError \/
  (e <> StopCollect /\
   finish_of (pytest_main E call (collect_argv pytest_args)) = Throw e).
Proof.
  unfold _run_pytest_collect, main_with_plugin, collect_argv.
  assert (H : forall path : option str,
             match finish_of (pytest_main E call
                                (pytest_args ++ [py "--collect-only"])) with
             | Exit exit_code =>
                 if (exit_code =? EXIT_INTERRUPTED E)%Z
                 then Raise KeyboardInterrupt
                 else if negb ((exit_code =? EXIT_OK E)%Z
                               || (exit_code =? EXIT_NOTESTSCOLLECTED E)%Z)
                      then Raise CollectError
                      else Ok path
             | Throw StopCollect => Ok path
             | Throw e0 => Raise e0
             end = Raise e ->
             e = KeyboardInterrupt \/ e = CollectError \/
             (e <> StopCollect /\
              finish_of (pytest_main E call
                           (pytest_args ++ [py "--collect-only"]))
              = Throw e)).
  { intros path.
    destruct (finish_of _) as [code|e'].
    - destruct (code =? EXIT_INTERRUPTED E)%Z; [intros [= <-]; now left|].
      destruct (negb _); [intros [= <-]; auto|discriminate].
    - destruct e'; try discriminate; intros [= <-];
        right; right; (split; [discriminate|reflexivity]). }
  destruct (hook_inifile (pytest_main E call _)) as [[[|c p]|]|];
    cbn [pytest_cmdline_main]; try discriminate; apply H.
Qed.

Lemma collect_config_errors (E : env) (pytest_args : list str)
    (silent : bool) (e : exn) :
  _collect_config E pytest_args silent = Raise e ->
  e = KeyboardInterrupt \/ e = CollectError \/
  (e <> StopCollect /\
   exists call,
     finish_of (pytest_main E call (collect_argv pytest_args)) = Throw e).
Proof.
  assert (H : forall call,
             _run_pytest_collect E call pytest_args = Raise e ->
             e = KeyboardInterrupt \/ e = CollectError \/
             (e <> StopCollect /\
              exists call,
                finish_of (pytest_main E call (collect_argv pytest_args))
                = Throw e)).
  { intros call Hr.
    apply run_pytest_collect_errors in Hr as [Hr|[Hr|[Hne Hr]]]; auto.
    right; right. split; [assumption|now exists call]. }
  unfold _collect_config. destruct silent; [|apply H].
  destruct (_run_pytest_collect E 0 pytest_args) as [p|e0] eqn:E0;
    [discriminate|].
  destruct (caught_when_silent e0); [apply H|].
  intros [= ->]. now apply (H 0).
Qed.

(** An exception that leaves [merge_config] is one that the runner raised
    in a dry run (never [StopCollect], the signal of the hook, and never
    [KeyboardInterrupt] or [CollectError], which give [False]), or one of
    the four reading errors of [configparser], or the exception with which
    opening or reading the discovered file fails, or the [TypeError] of the
    getters. *)
Theorem merge_config_raises_only
    (body : config -> str -> str -> result str) (E : env)
    (args args' : dict value) (pytest_args : list str)
    (silent verbose : bool) (e : exn) :
  merge_config body E args pytest_args silent verbose = Raised e args' ->
  (e <> StopCollect /\ e <> KeyboardInterrupt /\ e <> CollectError /\
   exists call,
     finish_of (pytest_main E call (collect_argv pytest_args)) = Throw e) \/
  In e reading_errors \/
  (exists path seen,
     _collect_config E pytest_args silent = Ok (Some path) /\
     open_file E path = FileFails e seen) \/
  e = TypeError.
Proof.
  unfold merge_config.
  destruct (_collect_config E pytest_args silent) as [[[|c p]|]|e0] eqn:Hc;
    try discriminate.
  - destruct (read (open_file E) (c :: p)) as [cfg|e1] eqn:Hr.
    + rewrite (merge_from_with_parser body _ args _ cfg Hr).
      destruct (_ && _); [|discriminate]. intros [= <- _]. auto.
    + unfold merge_from. rewrite Hr. intros [= <- _]. right.
      unfold read, RawConfigParser_read in Hr.
      destruct (open_file E (c :: p)) as [content| |e2 seen] eqn:Ho;
        [left; now apply _read_errors in Hr|discriminate|].
      destruct (is_Exception e2);
        [|injection Hr as <-; right; left; now exists (c :: p), seen].
      destruct (read_lines new_reader (readlines seen)) as [rd|e3] eqn:El;
        cbn [bind] in Hr; injection Hr as <-.
      * right; left. now exists (c :: p), seen.
      * left. apply read_lines_errors in El; [|exact I].
        unfold reading_errors. cbn. intuition.
  - apply collect_config_errors in Hc as [->|[->|[Hne Hex]]];
      try discriminate.
    destruct e0; try discriminate; intros [= <- _]; left;
      (split; [assumption|split; [discriminate|split;
                                   [discriminate|assumption]]]).
Qed.

(** The runner resolves an ini file whose bytes do not decode. *)
Lemma merge_config_raises_only_witness :
  merge_config lookup_body
    (simple_env (Some ini_path) 0 (fun _ => FileFails ValueError []))
    [(py "--runner", VNone)] [] true false
  = Raised ValueError [(py "--runner", VNone)] /\
  ((ValueError <> StopCollect /\
    ValueError <> KeyboardInterrupt /\
    ValueError <> CollectError /\
    exists call,
      finish_of
        (pytest_main
           (simple_env (Some ini_path) 0 (fun _ => FileFails ValueError []))
           call (collect_argv [])) = Throw ValueError) \/
   In ValueError reading_errors \/
   (exists path seen,
      _collect_config
        (simple_env (Some ini_path) 0 (fun _ => FileFails ValueError []))
        [] true = Ok (Some path) /\
      open_file
        (simple_env (Some ini_path) 0 (fun _ => FileFails ValueError []))
        path = FileFails ValueError seen) \/
   ValueError = TypeError).
Proof.
  assert (H : merge_config lookup_body
    (simple_env (Some ini_path) 0 (fun _ => FileFails ValueError []))
    [(py "--runner", VNone)] [] true false
  = Raised ValueError [(py "--runner", VNone)])
    by (vm_compute; reflexivity).
  refine (conj H _).
  exact (merge_config_raises_only lookup_body
           (simple_env (Some ini_path) 0 (fun _ => FileFails ValueError []))
           [(py "--runner", VNone)] [(py "--runner", VNone)] [] true false
           ValueError H).
Defined.

(** ** Every item token: the three strips, in their order *)

Section StrippedFacts.
Variable p : ascii -> bool.

Lemma dropwhile_cuts_class (s : str) :
  exists pre, s = pre ++ dropwhile p s /\ forallb p pre = true.
Proof.
  induction s as [|c s (pre & IH & Hpre)]; simpl.
  - now exists [].
  - destruct (p c) eqn:E.
    + exists (c :: pre). simpl. rewrite E, Hpre.
      split; [now f_equal|reflexivity].
    + now exists [].
Qed.

(** [strip_by] meets the description [stripped], and nothing else does. *)
Lemma strip_by_is_stripped (s : str) : stripped p s (strip_by p s).
Proof.
  unfold stripped.
  destruct (dropwhile_cuts_class s) as (a & Ha & Hpa).
  destruct (dropwhile_cuts_class (rev (dropwhile p s))) as (b & Hb & Hpb).
  exists a, (rev b). split; [|split; [exact Hpa|split]].
  - rewrite Ha at 1. f_equal.
    unfold strip_by, rstrip_by, lstrip_by.
    rewrite <- rev_app_distr, <- Hb. now rewrite rev_involutive.
  - now apply forallb_rev.
  - apply strip_by_leaves_clean_ends.
Qed.

Lemma stripped_is_strip_by (s x : str) : stripped p s x -> x = strip_by p s.
Proof.
  intros (a & b & -> & Ha & Hb & Hx). symmetry. now apply strip_by_wrapped.
Qed.

End StrippedFacts.

(** The items of a text that holds one token. *)
Lemma array_items_of_token (token : str) :
  ~ In ","%char token ->
  array_items token
  = items_of_token (strip token)
      (strip_chars [squote] (strip_chars [dquote] (strip token))).
Proof.
  intros Hc. unfold array_items.
  rewrite (split_without_separator _ _ Hc). cbn [filter].
  destruct (strip token) as [|c r] eqn:E; [reflexivity|].
  cbn [map items_of_token]. now rewrite E.
Qed.

(** C4 (amended).  For every token between two commas, at the start or at
    the end of the text in brackets: the token is stripped of white space,
    what is left is stripped of double quotes, and what is left of that is
    stripped of single quotes, in this order and each time of all the
    characters of the class at both ends; the three results are determined
    by the token.  The token gives no item when white space is all it
    holds, and otherwise the third result as its one item, which is empty
    for a token of quotes only.  The tokens around it are processed on
    their own. *)
Theorem array_items_strip_in_order (token : str) :
  ~ In ","%char token ->
  exists x1 x2 x3,
    (stripped isspace token x1 /\ stripped is_dquote x1 x2 /\
     stripped is_squote x2 x3) /\
    (forall y1 y2 y3,
       stripped isspace token y1 -> stripped is_dquote y1 y2 ->
       stripped is_squote y2 y3 -> y1 = x1 /\ y2 = x2 /\ y3 = x3) /\
    array_items token = items_of_token x1 x3 /\
    (forall before,
       array_items (before ++ ","%char :: token)
       = array_items before ++ items_of_token x1 x3) /\
    (forall after,
       array_items (token ++ ","%char :: after)
       = items_of_token x1 x3 ++ array_items after) /\
    (forall before after,
       array_items (before ++ ","%char :: token ++ ","%char :: after)
       = array_items before ++ items_of_token x1 x3 ++ array_items after).
Proof.
  intros Hc.
  exists (strip token), (strip_chars [dquote] (strip token)),
    (strip_chars [squote] (strip_chars [dquote] (strip token))).
  pose proof (array_items_of_token token Hc) as Ht.
  split; [|split; [|split; [exact Ht|split; [|split]]]].
  - split; [|split].
    + exact (strip_by_is_stripped isspace token).
    + exact (strip_by_is_stripped is_dquote (strip token)).
    + exact (strip_by_is_stripped is_squote
               (strip_chars [dquote] (strip token))).
  - intros y1 y2 y3 H1 H2 H3.
    apply stripped_is_strip_by in H1. subst y1.
    apply stripped_is_strip_by in H2. subst y2.
    apply stripped_is_strip_by in H3. subst y3.
    split; [|split]; reflexivity.
  - intros before. now rewrite array_items_at_comma, Ht.
  - intros after. now rewrite array_items_at_comma, Ht.
  - intros before after.
    now rewrite array_items_at_comma, array_items_at_comma, Ht.
Qed.

(** The token that reads: blank, single quote, double quote, a, double
    quote, single quote, blank.  Its item keeps the double quotes. *)
Lemma array_items_strip_in_order_witness :
  ~ In ","%char (py " '" ++ [dquote] ++ py "a" ++ [dquote] ++ py "' ") /\
  exists x1 x2 x3,
    (stripped isspace (py " '" ++ [dquote] ++ py "a" ++ [dquote] ++ py "' ")
       x1 /\
     stripped is_dquote x1 x2 /\ stripped is_squote x2 x3) /\
    (forall y1 y2 y3,
       stripped isspace
         (py " '" ++ [dquote] ++ py "a" ++ [dquote] ++ py "' ") y1 ->
       stripped is_dquote y1 y2 -> stripped is_squote y2 y3 ->
       y1 = x1 /\ y2 = x2 /\ y3 = x3) /\
    array_items (py " '" ++ [dquote] ++ py "a" ++ [dquote] ++ py "' ")
    = items_of_token x1 x3 /\
    (forall before,
       array_items
         (before ++ ","%char
            :: py " '" ++ [dquote] ++ py "a" ++ [dquote] ++ py "' ")
       = array_items before ++ items_of_token x1 x3) /\
    (forall after,
       array_items
         ((py " '" ++ [dquote] ++ py "a" ++ [dquote] ++ py "' ")
          ++ ","%char :: after)
       = items_of_token x1 x3 ++ array_items after) /\
    (forall before after,
       array_items
         (before ++ ","%char
            :: (py " '" ++ [dquote] ++ py "a" ++ [dquote] ++ py "' ")
            ++ ","%char :: after)
       = array_items before ++ items_of_token x1 x3 ++ array_items after).
Proof.
  assert (H : ~ In ","%char
                (py " '" ++ [dquote] ++ py "a" ++ [dquote] ++ py "' ")).
  { simpl. intros [H|[H|[H|[H|[H|[H|[H|[]]]]]]]]; discriminate. }
  refine (conj H _).
  exact (array_items_strip_in_order
           (py " '" ++ [dquote] ++ py "a" ++ [dquote] ++ py "' ") H).
Defined.

(** The order shows where the quotes are mixed: a double-quoted letter in
    single quotes keeps its double quotes, and so does a letter with one
    double quote behind it inside single quotes, while single quotes inside
    double quotes go with them; blanks inside quotes stay. *)
Lemma array_items_mixed_quotes :
  array_items (py "'" ++ [dquote] ++ py "a" ++ [dquote] ++ py "'")
  = [[dquote] ++ py "a" ++ [dquote]] /\
  array_items (py "'a" ++ [dquote] ++ py "'") = [py "a" ++ [dquote]] /\
  array_items ([dquote] ++ py "'a'" ++ [dquote]) = [py "a"] /\
  array_items ([dquote] ++ py " a " ++ [dquote]) = [py " a "].
Proof. repeat split. Qed.

(** ** A discovered file that cannot be read *)

(** When opening or reading the discovered file fails with an exception
    that is no [OSError], the handler of [read] hands the file to the
    inherited [read], which fails in the same way: the exception leaves
    [merge_config], unless a line read before the failure raised an error of
    its own. *)
Theorem merge_config_unreadable_file
    (body : config -> str -> str -> result str) (E : env)
    (args : dict value) (pytest_args : list str) (silent verbose : bool)
    (path : str) (e : exn) (seen : str) (rd : reader) :
  _collect_config E pytest_args silent = Ok (Some path) ->
  path <> [] ->
  open_file E path = FileFails e seen ->
  read_lines new_reader (readlines seen) = Ok rd ->
  merge_config body E args pytest_args silent verbose = Raised e args.
Proof.
  intros Hc Hp Ho Hl. unfold merge_config. rewrite Hc.
  destruct path as [|c p]; [contradiction|].
  unfold merge_from, read, RawConfigParser_read. rewrite Ho, Hl.
  now destruct (is_Exception e).
Qed.

(** The bytes of the resolved ini file stop decoding after its first
    line. *)
Lemma merge_config_unreadable_file_witness :
  _collect_config
    (simple_env (Some ini_path) 0
       (fun _ => FileFails ValueError (py "[pytest-watch]" ++ [nl])))
    [] false
  = Ok (Some ini_path) /\
  ini_path <> [] /\
  open_file
    (simple_env (Some ini_path) 0
       (fun _ => FileFails ValueError (py "[pytest-watch]" ++ [nl])))
    ini_path
  = FileFails ValueError (py "[pytest-watch]" ++ [nl]) /\
  (exists rd,
     read_lines new_reader (readlines (py "[pytest-watch]" ++ [nl])) = Ok rd) /\
  merge_config lookup_body
    (simple_env (Some ini_path) 0
       (fun _ => FileFails ValueError (py "[pytest-watch]" ++ [nl])))
    [(py "--runner", VNone)] [] false false
  = Raised ValueError [(py "--runner", VNone)].
Proof.
  assert (Hp : ini_path <> []) by discriminate.
  refine (conj eq_refl (conj Hp (conj eq_refl
            (conj (ex_intro _ _ eq_refl) _)))).
  exact (merge_config_unreadable_file lookup_body
           (simple_env (Some ini_path) 0
              (fun _ => FileFails ValueError (py "[pytest-watch]" ++ [nl])))
           [(py "--runner", VNone)] [] false false ini_path ValueError
           (py "[pytest-watch]" ++ [nl]) _ eq_refl Hp eq_refl eq_refl).
Defined.
